(** * The data pipeline of ua-2022-map ([download_data.py])

    A shallow embedding of the batch job that downloads OpenStreetMap
    data, normalises the tags of every feature and splits the result
    into named layers, together with the properties its specification
    states about it.

    Layout: first the fragment of Python the script relies on (JSON
    values, exceptions, truthiness, [re] patterns), then the functions
    of [download_data.py] in the order of the source, then the lemmas. *)

From Stdlib Require Import ZArith String Ascii List Bool.
From Stdlib Require Import Floats.SpecFloat.
From stdpp Require Import gmap strings list fin_maps pretty.

Set Warnings "-register-all".
Local Open Scope string_scope.
Local Open Scope list_scope.

(** ** Python values

    Everything the script handles is what [response.json()] and
    [json2geojson] return: [None], booleans, numbers, [str], [list] and
    [dict] with [str] keys.  A [dict] is a finite map; the insertion order
    Python keeps for it is not observable by any function below except
    where said.  A [str] is its UTF-8 byte string. *)

Inductive json : Type :=
  | JNull
  | JBool (b : bool)
  | JInt (z : Z)
  | JFloat (f : spec_float)
  | JStr (s : string)
  | JArr (l : list json)
  | JObj (d : gmap string json).

(** The error numbers of an [OSError] the script can meet. *)
Inductive errno : Type :=
  | ENOENT
  | ENOTDIR
  | EBADF
  | ELOOP
  | ENAMETOOLONG
  | EACCES
  | EOTHER (code : Z).

(** The exceptions the script can raise or let through. *)
Inductive exn : Type :=
  | KeyError (key : string)
  | TypeError
  | AttributeError
  | ValueError
  | HTTPError
  | OSError (error : errno)
  | SystemExit (code : Z).

Inductive result (A : Type) : Type :=
  | Ok (a : A)
  | Err (e : exn).
Arguments Ok {A} a.
Arguments Err {A} e.

#[global] Instance result_ret : MRet result := λ A a, Ok a.
#[global] Instance result_bind : MBind result := λ A B f m,
  match m with
  | Ok a => f a
  | Err e => Err e
  end.

(** The line feed, and the double quote of the log messages. *)
Definition LF : ascii := "010"%char.
Definition QUOTE : ascii := "034"%char.

Module Py.

(** [bool(v)]. *)
Definition truthy (v : json) : bool :=
  match v with
  | JNull => false
  | JBool b => b
  | JInt z => negb (z =? 0)%Z
  | JFloat (S754_zero _) => false
  | JFloat _ => true
  | JStr s => negb (String.eqb s "")
  | JArr l => negb (bool_decide (l = []))
  | JObj d => negb (bool_decide (d = ∅))
  end.

(** [v[key]] for a [str] key: only a [dict] can be indexed by a string. *)
Definition subscript (v : json) (key : string) : result json :=
  match v with
  | JObj d =>
      match d !! key with
      | Some x => Ok x
      | None => Err (KeyError key)
      end
  | _ => Err TypeError
  end.

(** [v.items()], and with it every later [v.get(...)]: only a [dict] has
    these attributes. *)
Definition items (v : json) : result (gmap string json) :=
  match v with
  | JObj d => Ok d
  | _ => Err AttributeError
  end.

(** [d.get(key)] and [d.get(key, default)] on a [dict]. *)
Definition get (d : gmap string json) (key : string) : json :=
  default JNull (d !! key).
Definition get_default (d : gmap string json) (key : string) (dflt : json) : json :=
  default dflt (d !! key).

(** [v.get(key, default)] on any value. *)
Definition dict_get (v : json) (key : string) (dflt : json) : result json :=
  d ← items v; Ok (get_default d key dflt).

(** [a + b] where one of the operands is known to be a [str]: it is the
    concatenation when the other one is a [str] too, a [TypeError]
    otherwise. *)
Definition add (a b : json) : result json :=
  match a, b with
  | JStr x, JStr y => Ok (JStr (x +:+ y))
  | _, _ => Err TypeError
  end.

(** [separator.join(vs)]: every item must be a [str]. *)
Fixpoint join (separator : string) (vs : list json) : result string :=
  match vs with
  | [] => Ok ""
  | JStr s :: [] => Ok s
  | JStr s :: rest => r ← join separator rest; Ok (s +:+ separator +:+ r)
  | _ :: _ => Err TypeError
  end.

(** [v == s] for a [str] literal [s]. *)
Definition eq_str (v : json) (s : string) : bool :=
  match v with
  | JStr x => String.eqb x s
  | _ => false
  end.

(** [v in (s1, ..., sn)] for a tuple of [str] literals. *)
Definition in_strs (v : json) (ss : list string) : bool :=
  existsb (eq_str v) ss.

(** [for x in v] (and [len(v)]): a [list] yields its items, a [dict] its
    keys, a [str] its characters; nothing else is iterable. *)
Definition iter (v : json) : result (list json) :=
  match v with
  | JArr l => Ok l
  | JObj d => Ok ((λ kv, JStr kv.1) <$> map_to_list d)
  | JStr s => Ok ((λ c, JStr (String c "")) <$> list_ascii_of_string s)
  | _ => Err TypeError
  end.

End Py.

(** ** The fragment of [re] the script uses

    The five patterns are built from literal characters, [^], [$], [.]
    and a starred character.  Without flags, [.] is any character but the
    line feed, [^] holds at the start of the string and [$] at its end or
    just before a line feed that ends it. *)

Module Re.

Inductive atom : Type :=
  | Chr (c : ascii)
  | AnyChar.

Inductive item : Type :=
  | Bol
  | Eol
  | One (a : atom)
  | Star (a : atom).

Definition pattern : Type := list item.

Definition atom_of (c : ascii) : atom :=
  if Ascii.eqb c "." then AnyChar else Chr c.

(** [re.compile(s)] on this fragment. *)
Fixpoint compile (s : string) : pattern :=
  match s with
  | EmptyString => []
  | String c rest =>
      if Ascii.eqb c "^" then Bol :: compile rest
      else if Ascii.eqb c "$" then Eol :: compile rest
      else
        match rest with
        | String c' rest' =>
            if Ascii.eqb c' "*" then Star (atom_of c) :: compile rest'
            else One (atom_of c) :: compile rest
        | EmptyString => One (atom_of c) :: compile rest
        end
  end.

Definition atom_matches (a : atom) (c : ascii) : bool :=
  match a with
  | Chr x => Ascii.eqb x c
  | AnyChar => negb (Ascii.eqb c LF)
  end.

Definition at_end (s : string) : bool :=
  match s with
  | EmptyString => true
  | String c EmptyString => Ascii.eqb c LF
  | _ => false
  end.

(** Whether the pattern matches some prefix of [s], [start] telling if
    [s] begins at the start of the subject. *)
Fixpoint matches (p : pattern) (start : bool) (s : string) : bool :=
  match p with
  | [] => true
  | Bol :: p' => start && matches p' start s
  | Eol :: p' => at_end s && matches p' start s
  | One a :: p' =>
      match s with
      | String c s' => atom_matches a c && matches p' false s'
      | EmptyString => false
      end
  | Star a :: p' =>
      (fix star (start : bool) (s : string) : bool :=
         matches p' start s ||
         match s with
         | String c s' => atom_matches a c && star false s'
         | EmptyString => false
         end) start s
  end.

(** [bool(pattern.match(s))]. *)
Definition match_ (p : pattern) (s : string) : bool := matches p true s.

End Re.

(** ** [download_data.py] *)

(** [coalesce]: the first truthy argument, else the empty string. *)
Fixpoint coalesce (args : list json) : json :=
  match args with
  | [] => JStr ""
  | arg :: rest => if Py.truthy arg then arg else coalesce rest
  end.

(** [concatenate_tags] (its positional arguments as a list). *)
Definition concatenate_tags (tags : list json) (separator : string) : result json :=
  let non_none_tags := List.filter Py.truthy tags in
  s ← Py.join separator non_none_tags; Ok (JStr s).

Definition tags_to_ignore : list Re.pattern :=
  [ Re.compile "^name.*";
    Re.compile "^source.*";
    Re.compile "^ref.*";
    Re.compile "^.*phone$";
    Re.compile "^addr:.*" ].

(** [keep_key(tag)]: the loop over [tags_to_ignore] with its early return. *)
Fixpoint keep_key_loop (patterns : list Re.pattern) (tag : string) : bool :=
  match patterns with
  | [] => true
  | pattern :: rest =>
      if Re.match_ pattern tag then false else keep_key_loop rest tag
  end.

Definition keep_key (tag : string) : bool :=
  keep_key_loop tags_to_ignore tag.

(** The comprehension [{key: tag for key, tag in p.items() if keep_key(key)}]. *)
Definition kept_tags (p : gmap string json) : gmap string json :=
  filter (λ kv, keep_key kv.1 = true) p.

Definition process_feature_properties (properties : json) : result json :=
  p ← Py.subscript properties "tags";
  p ← Py.items p;
  let results := kept_tags p in
  let results :=
    <["name:pl" := coalesce [Py.get p "name:pl"; Py.get p "name"]]> results in
  let results :=
    <["name:uk" := coalesce [Py.get p "name:uk"; Py.get p "name:ua"; Py.get p "name"]]>
      results in
  let results :=
    <["name:en" := coalesce [Py.get p "name:en"; Py.get p "name"]]> results in
  let results :=
    <["name:ru" := coalesce [Py.get p "name:ru"; Py.get p "name"]]> results in
  results ←
    (if Py.truthy (Py.get p "addr:housenumber") then
       place ← Py.add (coalesce [Py.get p "addr:city"; Py.get p "addr:place"]) (JStr " ");
       street ←
         (if Py.truthy (Py.get_default p "addr:street" (JStr ""))
          then Py.add (Py.get_default p "addr:street" (JStr "")) (JStr " ")
          else Ok (JStr ""));
       a ← Py.add place street;
       a ← Py.add a (Py.get p "addr:housenumber");
       Ok (<["address" := a]> results)
     else Ok results);
  phone ← concatenate_tags [Py.get p "phone"; Py.get p "contact:phone"] ";";
  Ok (JObj (<["phone" := phone]> results)).

(** The list comprehension of [process_geojson]: the items are built in
    order and the first exception ends it. *)
Fixpoint comprehension (f : json → result json) (l : list json) : result (list json) :=
  match l with
  | [] => Ok []
  | x :: rest => y ← f x; ys ← comprehension f rest; Ok (y :: ys)
  end.

Definition process_feature (feature : json) : result json :=
  properties ← Py.subscript feature "properties";
  properties ← process_feature_properties properties;
  geometry ← Py.subscript feature "geometry";
  Ok (JObj {[ "type" := JStr "Feature";
              "properties" := properties;
              "geometry" := geometry ]}).

Definition process_geojson (data : json) : result json :=
  features ← Py.subscript data "features";
  features ← Py.iter features;
  features ← comprehension process_feature features;
  Ok (JObj {[ "type" := JStr "FeatureCollection";
              "features" := JArr features ]}).

(** The [routers] table of [split_geojson], in the order of the source:
    layer name and test on a feature's properties. *)
Definition routers : list (string * (json → result bool)) :=
  [ ("reception_points",
      λ p, v ← Py.dict_get p "social_facility:for" (JStr "");
           Ok (if Py.in_strs v ["refugee"; "refugees"] then true else false));
    ("information_points",
      λ p, v ← Py.dict_get p "information:for" (JStr "");
           Ok (if Py.in_strs v ["refugee"; "refugees"] then true else false));
    ("blood_donation_points",
      λ p, v ← Py.dict_get p "healthcare" (JStr "");
           Ok (if Py.eq_str v "blood_donation" then true else false));
    ("social_facilities",
      λ p, v ← Py.dict_get p "social_facility" (JStr "");
           Ok (if Py.in_strs v ["food_bank"; "soup_kitchen"] then true else false));
    ("pharmacies",
      λ p, v ← Py.dict_get p "amenity" (JStr "");
           Ok (if Py.eq_str v "pharmacy" then true else false));
    ("hospitals",
      λ p, v ← Py.dict_get p "amenity" (JStr "");
           Ok (if Py.eq_str v "hospital" then true else false));
    ("consulates",
      λ p, v ← Py.dict_get p "office" (JStr "");
           if Py.eq_str v "diplomatic"
           then v ← Py.dict_get p "country" (JStr "");
                Ok (if Py.eq_str v "UA" then true else false)
           else Ok false);
    ("train_stations",
      λ p, v ← Py.dict_get p "building" (JStr "");
           Ok (if Py.eq_str v "train_station" then true else false));
    ("bus_stations",
      λ p, v ← Py.dict_get p "amenity" (JStr "");
           Ok (if Py.eq_str v "bus_station" then true else false)) ].

(** The [results] dictionary of [split_geojson] keeps the order in which
    its keys were first set, and [main] writes the layers in that order:
    it is an association list with one entry per key. *)
Module Odict.

Definition t (A : Type) : Type := list (string * A).

Fixpoint get {A} (d : t A) (key : string) : option A :=
  match d with
  | [] => None
  | (k, v) :: rest => if String.eqb k key then Some v else get rest key
  end.

(** [d[key] = v]: in place when the key is there, at the end otherwise. *)
Fixpoint set {A} (d : t A) (key : string) (v : A) : t A :=
  match d with
  | [] => [(key, v)]
  | (k, x) :: rest =>
      if String.eqb k key then (k, v) :: rest else (k, x) :: set rest key v
  end.

Definition keys {A} (d : t A) : list string := d.*1.

End Odict.

(** [results[layer_name]["features"].append(feature)]. *)
Definition append_feature (layer : json) (feature : json) : result json :=
  features ← Py.subscript layer "features";
  match layer, features with
  | JObj d, JArr l => Ok (JObj (<["features" := JArr (l ++ [feature])]> d))
  | _, _ => Err AttributeError
  end.

(** The body of the inner loop for one feature and one router. *)
Definition route_feature (feature : json) (results : Odict.t json)
    (router : string * (json → result bool)) : result (Odict.t json) :=
  let '(layer_name, test) := router in
  p ← Py.subscript feature "properties";
  b ← test p;
  if (b : bool) then
    if Py.truthy (default JNull (Odict.get results layer_name)) then
      let layer := default JNull (Odict.get results layer_name) in
      layer ← append_feature layer feature;
      Ok (Odict.set results layer_name layer)
    else
      Ok (Odict.set results layer_name
            (JObj {[ "type" := JStr "FeatureCollection";
                     "features" := JArr [feature] ]}))
  else Ok results.

(** A [for] loop with an accumulator, ended by the first exception. *)
Fixpoint for_each {A S : Type} (body : S → A → result S) (l : list A) (s : S) : result S :=
  match l with
  | [] => Ok s
  | x :: rest => s' ← body s x; for_each body rest s'
  end.

(** [split_geojson]; its three log lines are those of [split_geojson_log]
    below, the first of which evaluates [len(geojson['features'])] before
    the loop starts. *)
Definition split_geojson (geojson : json) : result (Odict.t json) :=
  let results := [] in
  features ← Py.subscript geojson "features";
  features ← Py.iter features;
  for_each (λ results feature, for_each (route_feature feature) routers results)
    features results.

(** ** [json.dump] as [save_json] calls it

    [json.dump(data, f, allow_nan=..., separators=(item, key))] encodes
    [data] piece by piece and writes every piece to the file as soon as
    it is encoded; an exception leaves what was written before it.  The
    encoder is the one the documentation of [json] describes; the text of
    a finite float ([float.__repr__]) and of a string literal
    ([encode_basestring_ascii], with its escapes) are Python's own and
    are taken as given.  Keys are written in the order of [map_to_list],
    which stands for the order of the [dict]. *)

Module Json.

(** What has been written, and how the encoding ended. *)
Definition written : Type := string * result unit.

Definition done (text : string) : written := (text, Ok tt).

(** Writing [text], then going on with [rest]. *)
Definition and_then (text : string) (rest : written) : written :=
  (text +:+ rest.1, rest.2).

(** Going on with [rest] after [first], if that ended well. *)
Definition seq (first rest : written) : written :=
  match first.2 with
  | Ok _ => and_then first.1 rest
  | Err e => first
  end.

(** [floatstr]: the text of a float.  Only with [allow_nan] do the three
    values that are no numbers of JSON get a text. *)
Definition floatstr (float_repr : spec_float → string) (allow_nan : bool)
    (f : spec_float) : result string :=
  match f with
  | S754_nan => if allow_nan then Ok "NaN" else Err ValueError
  | S754_infinity false => if allow_nan then Ok "Infinity" else Err ValueError
  | S754_infinity true => if allow_nan then Ok "-Infinity" else Err ValueError
  | _ => Ok (float_repr f)
  end.

(** The text of a value that is no [list] and no [dict]. *)
Definition scalar (float_repr : spec_float → string) (encode_str : string → string)
    (allow_nan : bool) (v : json) : option (result string) :=
  match v with
  | JStr s => Some (Ok (encode_str s))
  | JNull => Some (Ok "null")
  | JBool true => Some (Ok "true")
  | JBool false => Some (Ok "false")
  | JInt z => Some (Ok (pretty z))
  | JFloat f => Some (floatstr float_repr allow_nan f)
  | JArr _ | JObj _ => None
  end.

(** The items of a non-empty [list]: [buf] is the bracket or the
    separator that goes before the next item; it is written together
    with an item that is a scalar, and before an item that is not. *)
Fixpoint list_items (scalar : json → option (result string))
    (iterencode : json → written) (item_separator : string)
    (buf : string) (l : list json) : written :=
  match l with
  | [] => done "]"
  | v :: rest =>
      match scalar v with
      | Some (Ok text) =>
          and_then (buf +:+ text) (list_items scalar iterencode item_separator item_separator rest)
      | Some (Err e) => ("", Err e)
      | None =>
          and_then buf
            (seq (iterencode v)
                 (list_items scalar iterencode item_separator item_separator rest))
      end
  end.

(** The items of a [dict], each with the encoding of its value. *)
Fixpoint dict_items (encode_str : string → string) (item_separator key_separator : string)
    (first : bool) (items : list (string * written)) : written :=
  match items with
  | [] => done "}"
  | (key, value) :: rest =>
      and_then ((if first then "" else item_separator) +:+ encode_str key +:+ key_separator)
        (seq value (dict_items encode_str item_separator key_separator false rest))
  end.

Fixpoint iterencode (float_repr : spec_float → string) (encode_str : string → string)
    (allow_nan : bool) (item_separator key_separator : string) (v : json) : written :=
  match v with
  | JArr [] => done "[]"
  | JArr l =>
      list_items (scalar float_repr encode_str allow_nan)
        (iterencode float_repr encode_str allow_nan item_separator key_separator)
        item_separator "[" l
  | JObj d =>
      and_then "{"
        (dict_items encode_str item_separator key_separator true
           (map_to_list
              (iterencode float_repr encode_str allow_nan item_separator key_separator
                 <$> d)))
  | _ =>
      match scalar float_repr encode_str allow_nan v with
      | Some (Ok text) => done text
      | Some (Err e) => ("", Err e)
      | None => done ""
      end
  end.

(** [json.dump(obj, fp, allow_nan=allow_nan, separators=separators)]:
    what [fp] has received, and how the call ended. *)
Definition dump (float_repr : spec_float → string) (encode_str : string → string)
    (obj : json) (allow_nan : bool) (separators : string * string) : written :=
  iterencode float_repr encode_str allow_nan separators.1 separators.2 obj.

End Json.

(** ** The outside world and the run of the script

    What the script does to the outside is recorded as a trace of events;
    what the outside answers is read from a [World]. *)

Inductive path : Type :=
  | Path (s : string)
  | JoinPath (p : path) (name : string).

Inductive file_kind : Type :=
  | Directory
  | RegularFile
  | OtherFile.

Inductive level : Type :=
  | INFO
  | ERROR.

(** [FileOpen]: [open] is called on the file for writing; when it
    succeeds the file is empty from then on.
    [FileWrite]: the [with] block is left, normally or by an exception,
    and the file is closed holding [text], all that [json.dump] wrote to
    it until then.  Writing to a file that was opened is taken to succeed
    (no full disk). *)
Inductive event : Type :=
  | Log (lvl : level) (msg : string)
  | HttpPost (url : string) (data : list (string * string))
  | FileOpen (file : path)
  | FileWrite (file : path) (text : string).

(** A [requests.Response]: what [raise_for_status()] and [json()] do. *)
Record response : Type := {
  raise_for_status : result unit;
  response_json : result json;
}.

Record World : Type := {
  (** [Path(__file__).parent.resolve()] *)
  this_files_dir : path;
  (** [os.stat(path)]: what the path names, or the [OSError] (the
      [ValueError], for a path [os.stat] cannot take) it raises *)
  stat : path → result file_kind;
  (** [str(path)] *)
  path_str : path → string;
  (** [requests.post(url=..., data=...)] *)
  http_post : string → list (string * string) → result response;
  (** [osm2geojson.json2geojson] *)
  json2geojson : json → result json;
  (** [open(file=..., mode=w, encoding=utf-8)] *)
  open_w : path → result unit;
  (** [float.__repr__] on a finite float *)
  float_repr : spec_float → string;
  (** [json.encoder.encode_basestring_ascii]: a string literal of JSON *)
  encode_str : string → string;
}.



Record IO (A : Type) : Type := mkIO {
  trace : list event;
  outcome : result A;
}.
Arguments mkIO {A} trace outcome.
Arguments trace {A} i.
Arguments outcome {A} i.

#[global] Instance IO_ret : MRet IO := λ A a, mkIO [] (Ok a).
#[global] Instance IO_bind : MBind IO := λ A B f m,
  match outcome m with
  | Ok a => mkIO (trace m ++ trace (f a)) (outcome (f a))
  | Err e => mkIO (trace m) (Err e)
  end.

Definition emit (e : event) : IO unit := mkIO [e] (Ok tt).
Definition log (lvl : level) (msg : string) : IO unit := emit (Log lvl msg).
Definition lift {A} (r : result A) : IO A := mkIO [] r.

Fixpoint io_for {A} (body : A → IO unit) (l : list A) : IO unit :=
  match l with
  | [] => mret tt
  | x :: rest => body x;; io_for body rest
  end.


Definition overpass_api_url : string := "https://lz4.overpass-api.de/api/interpreter".

Definition overpass_query : string :=
  let Q := String QUOTE EmptyString in
  String.concat (String LF EmptyString)
    [ EmptyString;
      "    [out:json][timeout:420];";
      "    area(id:3600130919)->.wojLub;";
      "    area(id:3600130957)->.wojPodk;";
      "    area(id:3600049715)->.pol;";
      "    area(id:3600014296)->.slov;";
      "    area(id:3600090689)->.rom;";
      "    area(id:3600186382)->.bul;";
      "    area(id:3600058974)->.mol;";
      "    area(id:3600021335)->.hun; ";
      EmptyString;
      "    (";
      "    nwr[social_facility~" +:+ Q +:+ "food_bank|soup_kitchen|outreach" +:+ Q +:+ "](area.pol);";
      "    nwr[social_facility~" +:+ Q +:+ "food_bank|soup_kitchen|outreach" +:+ Q +:+ "](area.slov);";
      EmptyString;
      "    nwr[" +:+ Q +:+ "social_facility:for" +:+ Q +:+ "~" +:+ Q +:+ "refugee|refugees" +:+ Q +:+ "](area.pol);";
      "    nwr[" +:+ Q +:+ "social_facility:for" +:+ Q +:+ "~" +:+ Q +:+ "refugee|refugees" +:+ Q +:+ "](area.slov);";
      "    nwr[" +:+ Q +:+ "social_facility:for" +:+ Q +:+ "~" +:+ Q +:+ "refugee|refugees" +:+ Q +:+ "](area.rom);";
      "    nwr[" +:+ Q +:+ "social_facility:for" +:+ Q +:+ "~" +:+ Q +:+ "refugee|refugees" +:+ Q +:+ "](area.bul);";
      "        ";
      "    nwr[building=train_station](area.wojLub);";
      "    nwr[building=train_station](area.wojPodk);";
      EmptyString;
      "    nwr[amenity=bus_station](area.wojLub);";
      "    nwr[amenity=bus_station](area.wojPodk);";
      EmptyString;
      "    nwr[amenity=pharmacy](area.wojLub);";
      "    nwr[amenity=pharmacy](area.wojPodk);";
      EmptyString;
      "    nwr[amenity=hospital](area.wojLub);";
      "    nwr[amenity=hospital](area.wojPodk);";
      EmptyString;
      "    nwr[" +:+ Q +:+ "office" +:+ Q +:+ "=" +:+ Q +:+ "diplomatic" +:+ Q +:+ "][" +:+ Q +:+ "country" +:+ Q +:+ "=" +:+ Q +:+ "UA" +:+ Q +:+ "](34.741612,-13.5351,71.016960,38.320313);";
      EmptyString;
      "    nwr[" +:+ Q +:+ "healthcare" +:+ Q +:+ "=" +:+ Q +:+ "blood_donation" +:+ Q +:+ "](area.pol);";
      EmptyString;
      "    nwr[" +:+ Q +:+ "information:for" +:+ Q +:+ "=" +:+ Q +:+ "refugee" +:+ Q +:+ "](area.pol);";
      "    nwr[" +:+ Q +:+ "information:for" +:+ Q +:+ "=" +:+ Q +:+ "refugee" +:+ Q +:+ "](area.rom);";
      ");";
      "out center body qt;";
      EmptyString ].

Definition query_overpass_api (w : World) (query : string) (api_url : string) : IO json :=
  log INFO ("Requesting data from Overpass API. [url=" +:+ api_url +:+ "]");;
  emit (HttpPost api_url [("data", query)]);;
  response ← lift (http_post w api_url [("data", query)]);
  lift (raise_for_status response);;
  log INFO "Downloaded data from Overpass API.";;
  lift (response_json response).

(** [save_json]: the [with] block closes the file whether [json.dump]
    returns or raises, with what [json.dump] wrote to it. *)
Definition save_json (w : World) (file_path : path) (data : json) : IO unit :=
  log INFO ("Saving .json file. [path=" +:+ path_str w file_path +:+ "]");;
  emit (FileOpen file_path);;
  lift (open_w w file_path);;
  let dumped := Json.dump (float_repr w) (encode_str w) data false (",", ":") in
  emit (FileWrite file_path dumped.1);;
  lift dumped.2;;
  log INFO "Done saving json file.".

(** [len(v)], defined on what [for] can iterate. *)
Definition len (v : json) : result nat :=
  l ← Py.iter v; Ok (length l).

(** [split_geojson] with its log lines. *)
Definition split_geojson_log (geojson : json) : IO (Odict.t json) :=
  n ← lift (features ← Py.subscript geojson "features"; len features);
  log INFO ("Splitting geojson containing: " +:+ pretty (n : nat) +:+ " features.");;
  results ← lift (split_geojson geojson);
  log INFO ("Results have " +:+ pretty (length (Odict.keys results)) +:+ " layers.");;
  io_for (λ '(layer, gj),
            n ← lift (features ← Py.subscript gj "features"; len features);
            log INFO ("Layer: " +:+ layer +:+ " with: " +:+ pretty (n : nat) +:+ " features."))
         results;;
  mret results.

Definition main (w : World) (output_dir : path) : IO unit :=
  data ← query_overpass_api w overpass_query overpass_api_url;
  geojson_data ← lift (json2geojson w data);
  processed_data ← lift (process_geojson geojson_data);
  save_json w (JoinPath output_dir "osm_data.geojson") processed_data;;
  layers ← split_geojson_log processed_data;
  io_for (λ '(name, gj), save_json w (JoinPath output_dir (name +:+ ".geojson")) gj)
         layers.



(** ** Vocabulary of the specification

    The specification speaks of tags with string values, of keys that
    start or end with a word, of the first non-empty value of a chain.
    These are its words, kept apart from the code above. *)

(** A [dict] whose values are all strings, as the [tags] of OpenStreetMap
    and the normalised properties are. *)
Definition str_dict (t : gmap string string) : json := JObj (JStr <$> t).

Definition starts_with (word key : string) : Prop := ∃ rest, key = word +:+ rest.
Definition ends_with (word key : string) : Prop := ∃ front, key = front +:+ word.

Fixpoint has_linefeed (s : string) : bool :=
  match s with
  | EmptyString => false
  | String c rest => Ascii.eqb c LF || has_linefeed rest
  end.

(** What [^.*phone$] accepts: the key ends with [phone], or with [phone]
    and one line feed, and has no line feed before that. *)
Definition phone_key (key : string) : Prop :=
  ∃ front, has_linefeed front = false ∧
    (key = front +:+ "phone" ∨ key = front +:+ "phone" +:+ String LF "").

(** The keys [keep_key] refuses. *)
Definition ignored_key (key : string) : Prop :=
  starts_with "name" key ∨ starts_with "source" key ∨ starts_with "ref" key ∨
  phone_key key ∨ starts_with "addr:" key.

(** The keys the specification lists as refused, ending with [phone]
    read literally. *)
Definition listed_key (key : string) : Prop :=
  starts_with "name" key ∨ starts_with "source" key ∨ starts_with "ref" key ∨
  ends_with "phone" key ∨ starts_with "addr:" key.

Definition nonempty (o : option string) : bool :=
  match o with
  | Some s => negb (String.eqb s "")
  | None => false
  end.

(** First non-empty value of the chain, else the empty string. *)
Fixpoint first_nonempty (chain : list (option string)) : string :=
  match chain with
  | [] => ""
  | o :: rest => if nonempty o then default "" o else first_nonempty rest
  end.

(** The non-empty values among the two, joined by a semicolon. *)
Definition phone_of (phone contact_phone : option string) : string :=
  match nonempty phone, nonempty contact_phone with
  | true, true => default "" phone +:+ ";" +:+ default "" contact_phone
  | true, false => default "" phone
  | false, true => default "" contact_phone
  | false, false => ""
  end.

(** The address of a feature whose house number is [housenumber]. *)
Definition address_of (t : gmap string string) (housenumber : string) : string :=
  first_nonempty [t !! "addr:city"; t !! "addr:place"] +:+ " " +:+
  (if nonempty (t !! "addr:street") then default "" (t !! "addr:street") +:+ " " else "") +:+
  housenumber.

(** The four name fields and the two other fields normalisation sets. *)
Definition name_fields : list string := ["name:pl"; "name:uk"; "name:en"; "name:ru"].
Definition synthesized_fields : list string := name_fields ++ ["address"; "phone"].

(** A [FeatureCollection] of the given features. *)
Definition feature_collection (features : list json) : json :=
  JObj {[ "type" := JStr "FeatureCollection"; "features" := JArr features ]}.

(** The test of a layer, false for a name that is no layer. *)
Definition layer_test (layer_name : string) (p : json) : result bool :=
  match Odict.get routers layer_name with
  | Some test => test p
  | None => Ok false
  end.

(** Whether a feature belongs to a layer. *)
Definition in_layer (layer_name : string) (feature : json) : bool :=
  match p ← Py.subscript feature "properties"; layer_test layer_name p with
  | Ok true => true
  | _ => false
  end.

(** [r] answers the question [P]. *)
Definition decides (r : result bool) (P : Prop) : Prop :=
  (r = Ok true ∧ P) ∨ (r = Ok false ∧ ¬ P).

(** A feature as [json2geojson] hands it over: a [dict] with a geometry and
    with properties that hold string-valued tags. *)
Definition raw_feature (feature : json) : Prop :=
  ∃ d properties t geometry,
    feature = JObj d ∧
    d !! "properties" = Some (JObj properties) ∧
    properties !! "tags" = Some (str_dict t) ∧
    d !! "geometry" = Some geometry.

(** A feature with a properties [dict], as [process_geojson] returns it. *)
Definition has_properties (feature : json) : Prop :=
  ∃ d p, feature = JObj d ∧ d !! "properties" = Some (JObj p).


(** A tag value as [p.get(key)] returns it. *)
Definition opt_json (o : option string) : json := from_option JStr JNull o.

(** Closed form of the normalised properties of string-valued tags. *)
Definition normalized (t : gmap string string) : gmap string json :=
  let r :=
    <["name:ru" := JStr (first_nonempty [t !! "name:ru"; t !! "name"])]>
      (<["name:en" := JStr (first_nonempty [t !! "name:en"; t !! "name"])]>
         (<["name:uk" := JStr (first_nonempty [t !! "name:uk"; t !! "name:ua"; t !! "name"])]>
            (<["name:pl" := JStr (first_nonempty [t !! "name:pl"; t !! "name"])]>
               (kept_tags (JStr <$> t))))) in
  let r :=
    if nonempty (t !! "addr:housenumber")
    then <["address" := JStr (address_of t (default "" (t !! "addr:housenumber")))]> r
    else r in
  <["phone" := JStr (phone_of (t !! "phone") (t !! "contact:phone"))]> r.

(** ** The patterns of [keep_key] *)

Definition lits (word : string) : Re.pattern :=
  (λ c, Re.One (Re.Chr c)) <$> list_ascii_of_string word.

Lemma matches_star a p b s :
  Re.matches (Re.Star a :: p) b s =
  Re.matches p b s ||
  match s with
  | String c s' => Re.atom_matches a c && Re.matches (Re.Star a :: p) false s'
  | EmptyString => false
  end.
Proof. destruct s; reflexivity. Qed.

Lemma matches_lits word p b s :
  word ≠ "" →
  Re.matches (lits word ++ p) b s = true ↔
  ∃ rest, s = word +:+ rest ∧ Re.matches p false rest = true.
Proof.
  revert b s. induction word as [|c word IH]; intros b s Hne; [done|].
  change (lits (String c word) ++ p) with (Re.One (Re.Chr c) :: (lits word ++ p)).
  destruct s as [|c' s']; simpl.
  - split; [done | intros (rest & [=] & _)].
  - rewrite andb_true_iff, Ascii.eqb_eq. destruct word as [|c2 word].
    + simpl. split.
      * intros [-> H]. by exists s'.
      * intros (rest & [= -> ->] & H). done.
    + rewrite (IH false s') by done. split.
      * intros [-> (rest & -> & H)]. by exists rest.
      * intros (rest & [= -> ->] & H). split; [done|]. by exists rest.
Qed.

Lemma match_prefix word s :
  word ≠ "" →
  Re.match_ (Re.Bol :: lits word ++ [Re.Star Re.AnyChar]) s = true ↔ starts_with word s.
Proof.
  intros Hne. unfold Re.match_.
  change (Re.matches (Re.Bol :: ?p) true s) with (true && Re.matches p true s).
  rewrite andb_true_l, matches_lits by done. split.
  - intros (rest & -> & _). by exists rest.
  - intros (rest & ->). exists rest. split; [done|]. by rewrite matches_star.
Qed.

Lemma at_end_iff s : Re.at_end s = true ↔ s = "" ∨ s = String LF "".
Proof.
  destruct s as [|c [|c' s']]; simpl.
  - by split; [left|].
  - rewrite Ascii.eqb_eq. split; [intros ->; by right | by intros [? | [= ->]]].
  - by split; [|intros [? | ?]].
Qed.

Lemma matches_phone_here b s :
  Re.matches (lits "phone" ++ [Re.Eol]) b s = true ↔
  s = "phone" ∨ s = "phone" +:+ String LF "".
Proof.
  rewrite matches_lits by done. split.
  - intros (rest & -> & H). simpl in H. rewrite andb_true_r in H.
    apply at_end_iff in H as [-> | ->]; auto.
  - intros [-> | ->]; [exists "" | exists (String LF "")]; done.
Qed.

Lemma matches_star_phone b s :
  Re.matches (Re.Star Re.AnyChar :: lits "phone" ++ [Re.Eol]) b s = true ↔ phone_key s.
Proof.
  split.
  - revert b. induction s as [|c s IH]; intros b; rewrite matches_star, orb_true_iff.
    + intros [H | H]; [|done]. apply matches_phone_here in H. exists "". naive_solver.
    + intros [H | H].
      * apply matches_phone_here in H. exists "". naive_solver.
      * apply andb_true_iff in H as [Hc H]. apply IH in H as (front & Hf & H).
        exists (String c front). split.
        -- simpl. simpl in Hc. apply negb_true_iff in Hc. by rewrite Hc.
        -- simpl. destruct H as [-> | ->]; auto.
  - intros (front & Hf & H). revert b s Hf H.
    induction front as [|c front IH]; intros b s Hf H; rewrite matches_star, orb_true_iff.
    + left. by apply matches_phone_here.
    + right. simpl in Hf. apply orb_false_iff in Hf as [Hc Hf].
      destruct s as [|c' s]; [by destruct H|].
      assert (c' = c ∧ (s = front +:+ "phone" ∨ s = front +:+ "phone" +:+ String LF ""))
        as [-> Hs] by (destruct H as [H | H]; simpl in H; injection H as -> ->; auto).
      apply andb_true_iff. split.
      * simpl. by rewrite Hc.
      * by apply IH.
Qed.

Lemma match_name key :
  Re.match_ (Re.compile "^name.*") key = true ↔ starts_with "name" key.
Proof. by apply (match_prefix "name"). Qed.

Lemma match_source key :
  Re.match_ (Re.compile "^source.*") key = true ↔ starts_with "source" key.
Proof. by apply (match_prefix "source"). Qed.

Lemma match_ref key :
  Re.match_ (Re.compile "^ref.*") key = true ↔ starts_with "ref" key.
Proof. by apply (match_prefix "ref"). Qed.

Lemma match_addr key :
  Re.match_ (Re.compile "^addr:.*") key = true ↔ starts_with "addr:" key.
Proof. by apply (match_prefix "addr:"). Qed.

Lemma match_phone key :
  Re.match_ (Re.compile "^.*phone$") key = true ↔ phone_key key.
Proof.
  unfold Re.match_.
  change (Re.compile "^.*phone$")
    with (Re.Bol :: Re.Star Re.AnyChar :: lits "phone" ++ [Re.Eol]).
  change (Re.matches (Re.Bol :: ?p) true key) with (true && Re.matches p true key).
  rewrite andb_true_l. apply matches_star_phone.
Qed.

(** [keep_key] refuses exactly the keys one of the five patterns accepts. *)
Lemma keep_key_false key : keep_key key = false ↔ ignored_key key.
Proof.
  unfold keep_key, tags_to_ignore, ignored_key. cbn [keep_key_loop].
  rewrite <- match_name, <- match_source, <- match_ref, <- match_phone, <- match_addr.
  repeat case_match; intuition congruence.
Qed.

Lemma keep_key_true key : keep_key key = true ↔ ¬ ignored_key key.
Proof. rewrite <- keep_key_false. destruct (keep_key key); naive_solver. Qed.

(** ** Normalisation of string-valued tags *)

Lemma append_assoc a b c : (a +:+ b) +:+ c = a +:+ b +:+ c.
Proof.
  induction a as [|x a IH]; [done|].
  change (String x ((a +:+ b) +:+ c) = String x (a +:+ b +:+ c)). by rewrite IH.
Qed.

Lemma get_str (t : gmap string string) key :
  Py.get (JStr <$> t) key = opt_json (t !! key).
Proof. unfold Py.get. rewrite lookup_fmap. by destruct (t !! key). Qed.

Lemma get_default_str (t : gmap string string) key :
  Py.get_default (JStr <$> t) key (JStr "") = JStr (default "" (t !! key)).
Proof. unfold Py.get_default. rewrite lookup_fmap. by destruct (t !! key). Qed.

Lemma truthy_opt o : Py.truthy (opt_json o) = nonempty o.
Proof. by destruct o. Qed.

Lemma coalesce_opt chain :
  coalesce (opt_json <$> chain) = JStr (first_nonempty chain).
Proof.
  induction chain as [|o chain IH]; [done|].
  cbn [fmap list_fmap coalesce first_nonempty]. rewrite truthy_opt, IH.
  destruct o as [s|]; [|done]. simpl. by destruct (String.eqb s "").
Qed.

Lemma coalesce_opt2 a b :
  coalesce [opt_json a; opt_json b] = JStr (first_nonempty [a; b]).
Proof. apply (coalesce_opt [a; b]). Qed.

Lemma coalesce_opt3 a b c :
  coalesce [opt_json a; opt_json b; opt_json c] = JStr (first_nonempty [a; b; c]).
Proof. apply (coalesce_opt [a; b; c]). Qed.

Lemma concatenate_tags_opt a b :
  concatenate_tags [opt_json a; opt_json b] ";" = Ok (JStr (phone_of a b)).
Proof.
  unfold concatenate_tags, phone_of. cbn [List.filter]. rewrite !truthy_opt.
  destruct a as [a|], b as [b|]; simpl;
    repeat (destruct (String.eqb _ "")); simpl; try done.
Qed.

Lemma process_feature_properties_str (properties : gmap string json) t :
  properties !! "tags" = Some (str_dict t) →
  process_feature_properties (JObj properties) = Ok (JObj (normalized t)).
Proof.
  intros Htags. unfold process_feature_properties. cbn [Py.subscript].
  rewrite Htags. cbn [mbind result_bind str_dict Py.items].
  rewrite !get_str, !get_default_str, truthy_opt.
  rewrite !coalesce_opt2, coalesce_opt3, concatenate_tags_opt.
  unfold normalized, address_of.
  destruct (t !! "addr:housenumber") as [hn|] eqn:Hhn; [|done].
  cbn [nonempty opt_json from_option default]. destruct (negb (String.eqb hn "")); [|done].
  cbn [Py.add mbind result_bind Py.truthy id].
  destruct (t !! "addr:street") as [st|]; cbn [nonempty default String.eqb negb];
    unfold id.
  - destruct (negb (String.eqb st "")); cbn [mbind result_bind Py.add];
      by rewrite !append_assoc.
  - cbn [mbind result_bind Py.add]. by rewrite !append_assoc.
Qed.

Lemma kept_tags_lookup (p : gmap string json) key :
  kept_tags p !! key = if keep_key key then p !! key else None.
Proof.
  unfold kept_tags. destruct (keep_key key) eqn:Hk.
  - destruct (p !! key) as [v|] eqn:Hp.
    + by apply map_lookup_filter_Some.
    + apply map_lookup_filter_None. by left.
  - apply map_lookup_filter_None. right. intros v _. simpl. by rewrite Hk.
Qed.

Lemma elem_of_name_fields key :
  key ∈ name_fields ↔
  key = "name:pl" ∨ key = "name:uk" ∨ key = "name:en" ∨ key = "name:ru".
Proof. unfold name_fields. rewrite !elem_of_cons, elem_of_nil. tauto. Qed.

Lemma elem_of_synthesized_fields key :
  key ∈ synthesized_fields ↔ key ∈ name_fields ∨ key = "address" ∨ key = "phone".
Proof.
  unfold synthesized_fields. rewrite elem_of_app, !elem_of_cons, elem_of_nil. tauto.
Qed.

Lemma normalized_name_pl t :
  normalized t !! "name:pl" = Some (JStr (first_nonempty [t !! "name:pl"; t !! "name"])).
Proof. unfold normalized. case_match; by simplify_map_eq. Qed.

Lemma normalized_name_uk t :
  normalized t !! "name:uk" =
  Some (JStr (first_nonempty [t !! "name:uk"; t !! "name:ua"; t !! "name"])).
Proof. unfold normalized. case_match; by simplify_map_eq. Qed.

Lemma normalized_name_en t :
  normalized t !! "name:en" = Some (JStr (first_nonempty [t !! "name:en"; t !! "name"])).
Proof. unfold normalized. case_match; by simplify_map_eq. Qed.

Lemma normalized_name_ru t :
  normalized t !! "name:ru" = Some (JStr (first_nonempty [t !! "name:ru"; t !! "name"])).
Proof. unfold normalized. case_match; by simplify_map_eq. Qed.

Lemma normalized_phone t :
  normalized t !! "phone" = Some (JStr (phone_of (t !! "phone") (t !! "contact:phone"))).
Proof. unfold normalized. by simplify_map_eq. Qed.

Lemma normalized_address t :
  normalized t !! "address" =
  if nonempty (t !! "addr:housenumber")
  then Some (JStr (address_of t (default "" (t !! "addr:housenumber"))))
  else JStr <$> t !! "address".
Proof.
  unfold normalized. case_match; simplify_map_eq; [done|].
  by rewrite kept_tags_lookup, lookup_fmap.
Qed.

Lemma normalized_other t key :
  key ∉ synthesized_fields →
  normalized t !! key = if keep_key key then JStr <$> t !! key else None.
Proof.
  rewrite elem_of_synthesized_fields, elem_of_name_fields. intros Hkey.
  assert (key ≠ "name:pl" ∧ key ≠ "name:uk" ∧ key ≠ "name:en" ∧ key ≠ "name:ru" ∧
          key ≠ "address" ∧ key ≠ "phone") as (? & ? & ? & ? & ? & ?) by tauto.
  unfold normalized. rewrite <- lookup_fmap, <- kept_tags_lookup.
  case_match; by rewrite !lookup_insert_ne.
Qed.

Lemma first_nonempty_last chain name :
  Forall (λ o, nonempty o = false) chain →
  first_nonempty (chain ++ [Some name]) = name.
Proof.
  induction 1 as [|o chain Ho _ IH]; cbn [app first_nonempty].
  - simpl. destruct (String.eqb_spec name ""); by subst.
  - by rewrite Ho.
Qed.

(** ** Sample features *)

(** A pharmacy with an address and two telephone numbers. *)
Definition pharmacy_tags : gmap string string :=
  {[ "amenity" := "pharmacy"; "healthcare" := "blood_donation";
     "name" := "Apteka"; "name:en" := "Pharmacy";
     "addr:city" := "X"; "addr:street" := "Main"; "addr:housenumber" := "5";
     "phone" := "111"; "contact:phone" := "222";
     "source" := "survey"; "ref:regon" := "12345" ]}.

Definition pharmacy_properties : gmap string json :=
  {[ "type" := JStr "node"; "id" := JInt 42; "tags" := str_dict pharmacy_tags ]}.

(** A station named in Polish and in Ukrainian only, the latter under the
    key [name:ua]. *)
Definition station_tags : gmap string string :=
  {[ "building" := "train_station"; "name" := "Dworzec"; "name:ua" := "Vokzal" ]}.

(** Tags whose house number is the empty string. *)
Definition blank_housenumber_tags : gmap string string :=
  {[ "amenity" := "hospital"; "addr:city" := "X"; "addr:housenumber" := "" ]}.

(** A key that ends with [phone] after a line feed. *)
Definition broken_phone_key : string := "contact" +:+ String LF "phone".

Definition broken_phone_tags : gmap string string :=
  {[ "amenity" := "hospital"; broken_phone_key := "333" ]}.

(** Closed decidable facts, such as the membership of a given key in a
    given list, are settled by evaluation. *)
Ltac by_evaluation :=
  match goal with
  | |- ?P => refine (bool_decide_eq_true_1 P _); vm_compute; reflexivity
  end.

(** ** Property normalisation: the claims *)

(** C1, as amended.  For string-valued tags, normalisation returns
    properties whose four name fields are the first non-empty value of
    their chains ([name:uk] going through [name:ua] before [name]); these
    four are the only keys of the result that start with [name], and none
    is ever absent.  When the four language tags are absent and [name:ua]
    is absent or empty, all four fields equal the [name] tag. *)
Theorem name_fields_normalized (properties : gmap string json) (t : gmap string string) :
  properties !! "tags" = Some (str_dict t) →
  ∃ r, process_feature_properties (JObj properties) = Ok (JObj r) ∧
    r !! "name:pl" = Some (JStr (first_nonempty [t !! "name:pl"; t !! "name"])) ∧
    r !! "name:uk" =
      Some (JStr (first_nonempty [t !! "name:uk"; t !! "name:ua"; t !! "name"])) ∧
    r !! "name:en" = Some (JStr (first_nonempty [t !! "name:en"; t !! "name"])) ∧
    r !! "name:ru" = Some (JStr (first_nonempty [t !! "name:ru"; t !! "name"])) ∧
    (∀ key, starts_with "name" key → is_Some (r !! key) ↔ key ∈ name_fields) ∧
    (∀ name,
       t !! "name:pl" = None → t !! "name:uk" = None →
       t !! "name:en" = None → t !! "name:ru" = None →
       nonempty (t !! "name:ua") = false →
       t !! "name" = Some name →
       ∀ key, key ∈ name_fields → r !! key = Some (JStr name)).
Proof.
  intros Htags. exists (normalized t).
  split; [by apply process_feature_properties_str|].
  split; [apply normalized_name_pl|].
  split; [apply normalized_name_uk|].
  split; [apply normalized_name_en|].
  split; [apply normalized_name_ru|].
  split.
  - intros key Hname. split.
    + intros Hsome. destruct (decide (key ∈ name_fields)) as [|Hnot]; [done|].
      assert (key ∉ synthesized_fields) as Hsyn.
      { rewrite elem_of_synthesized_fields.
        intros [? | [-> | ->]]; [done | |]; by destruct Hname as [rest [=]]. }
      rewrite (normalized_other _ _ Hsyn) in Hsome.
      assert (keep_key key = false) as Hkeep by (apply keep_key_false; by left).
      rewrite Hkeep in Hsome. by destruct Hsome.
    + rewrite elem_of_name_fields. intros [-> | [-> | [-> | ->]]].
      * by rewrite normalized_name_pl.
      * by rewrite normalized_name_uk.
      * by rewrite normalized_name_en.
      * by rewrite normalized_name_ru.
  - intros name Hpl Huk Hen Hru Hua Hname key.
    rewrite elem_of_name_fields. intros [-> | [-> | [-> | ->]]].
    + rewrite normalized_name_pl, Hpl, Hname.
      do 2 f_equal. apply (first_nonempty_last [None]). by repeat constructor.
    + rewrite normalized_name_uk, Huk, Hname.
      do 2 f_equal. apply (first_nonempty_last [None; t !! "name:ua"]).
      by repeat constructor.
    + rewrite normalized_name_en, Hen, Hname.
      do 2 f_equal. apply (first_nonempty_last [None]). by repeat constructor.
    + rewrite normalized_name_ru, Hru, Hname.
      do 2 f_equal. apply (first_nonempty_last [None]). by repeat constructor.
Qed.

(** A feature that has a [name] tag and no other name tag. *)
Definition plain_name_tags : gmap string string :=
  {[ "amenity" := "bus_station"; "name" := "Dworzec" ]}.

Definition plain_name_properties : gmap string json :=
  {[ "type" := JStr "way"; "tags" := str_dict plain_name_tags ]}.

Lemma name_fields_normalized_witness :
  plain_name_properties !! "tags" = Some (str_dict plain_name_tags) ∧
  ∃ r, process_feature_properties (JObj plain_name_properties) = Ok (JObj r) ∧
       ∀ key, key ∈ name_fields → r !! key = Some (JStr "Dworzec").
Proof.
  split; [reflexivity|].
  destruct (name_fields_normalized plain_name_properties plain_name_tags eq_refl)
    as (r & Hr & _ & _ & _ & _ & _ & Hname).
  exists r. split; [exact Hr|].
  apply (Hname "Dworzec"); reflexivity.
Defined.

(** C1 as the specification states it fails on a feature that has [name]
    and [name:ua] but none of the four language tags: its [name:uk] field
    is the [name:ua] value, not the [name] value. *)
Lemma name_uk_prefers_name_ua :
  station_tags !! "name:pl" = None ∧ station_tags !! "name:uk" = None ∧
  station_tags !! "name:en" = None ∧ station_tags !! "name:ru" = None ∧
  station_tags !! "name" = Some "Dworzec" ∧
  ∃ r, process_feature_properties (JObj {[ "tags" := str_dict station_tags ]}) =
         Ok (JObj r) ∧
       r !! "name:uk" = Some (JStr "Vokzal") ∧
       r !! "name:uk" ≠ Some (JStr "Dworzec").
Proof.
  repeat (split; [reflexivity|]).
  exists (normalized station_tags).
  split; [by apply process_feature_properties_str|].
  rewrite normalized_name_uk. split; [reflexivity | discriminate].
Qed.

(** X17.  What [keep_key] does on every key, line feeds included.  A tag
    is copied verbatim exactly when its key is not refused by one of the
    five patterns as [re.match] reads them, where the fourth pattern
    refuses the keys that end with [phone], or with [phone] and a final
    line feed, and have no line feed before: outside the six synthesized
    fields the result holds the tags with a key that is not refused,
    unchanged, and nothing else; a refused key is in the result only as
    one of the four name fields or as [phone]. *)
Theorem kept_keys (properties : gmap string json) (t : gmap string string) :
  properties !! "tags" = Some (str_dict t) →
  ∃ r, process_feature_properties (JObj properties) = Ok (JObj r) ∧
    (∀ key value,
       kept_tags (JStr <$> t) !! key = Some (JStr value) ↔
       t !! key = Some value ∧ ¬ ignored_key key) ∧
    (∀ key, key ∉ synthesized_fields → ¬ ignored_key key →
       r !! key = JStr <$> t !! key) ∧
    (∀ key, key ∉ synthesized_fields → ignored_key key → r !! key = None) ∧
    (∀ key, ignored_key key → is_Some (r !! key) →
       key ∈ name_fields ∨ key = "phone").
Proof.
  intros Htags. exists (normalized t).
  split; [by apply process_feature_properties_str|].
  split; [|split; [|split]].
  - intros key value. rewrite kept_tags_lookup, <- keep_key_true, lookup_fmap.
    destruct (keep_key key), (t !! key) as [v|]; simpl; intuition congruence.
  - intros key Hsyn Hkeep. rewrite (normalized_other _ _ Hsyn).
    by apply keep_key_true in Hkeep as ->.
  - intros key Hsyn Hign. rewrite (normalized_other _ _ Hsyn).
    by apply keep_key_false in Hign as ->.
  - intros key Hign Hsome.
    destruct (decide (key ∈ synthesized_fields)) as [Hsyn | Hsyn].
    + apply elem_of_synthesized_fields in Hsyn as [? | [-> | ->]]; [by left | | by right].
      apply keep_key_false in Hign. by vm_compute in Hign.
    + rewrite (normalized_other _ _ Hsyn) in Hsome.
      apply keep_key_false in Hign. rewrite Hign in Hsome. by destruct Hsome.
Qed.

Lemma kept_keys_witness :
  pharmacy_properties !! "tags" = Some (str_dict pharmacy_tags) ∧
  ∃ r, process_feature_properties (JObj pharmacy_properties) = Ok (JObj r) ∧
       r !! "amenity" = Some (JStr "pharmacy") ∧
       r !! "source" = None ∧ r !! "ref:regon" = None ∧
       r !! "addr:city" = None ∧ r !! "contact:phone" = None ∧ r !! "name" = None.
Proof.
  split; [reflexivity|].
  destruct (kept_keys pharmacy_properties pharmacy_tags eq_refl)
    as (r & Hr & _ & Hkept & Hdropped & _).
  exists r. split; [exact Hr|].
  split.
  { rewrite Hkept; [reflexivity | by_evaluation |].
    apply keep_key_true. reflexivity. }
  repeat split; apply Hdropped;
    try by_evaluation; apply keep_key_false; reflexivity.
Defined.

(** C2.  The code does not drop every key that ends with [phone], as
    the specification and the fourth pattern of [tags_to_ignore] mean it
    to: a key that ends with [phone] after a line feed is one of the keys
    listed as dropped, it is none of the synthesized fields, and its tag
    is copied to the normalized properties.  The pattern [^.*phone$] is
    matched with a [.] that does not cross a line feed. *)
Lemma phone_after_linefeed_is_kept :
  ends_with "phone" broken_phone_key ∧ listed_key broken_phone_key ∧
  (broken_phone_key ∉ synthesized_fields) ∧
  ∃ r, process_feature_properties (JObj {[ "tags" := str_dict broken_phone_tags ]}) =
         Ok (JObj r) ∧
       r !! broken_phone_key = Some (JStr "333").
Proof.
  assert (ends_with "phone" broken_phone_key) as Hends.
  { exists (String.append "contact" (String LF "")). reflexivity. }
  split; [exact Hends|].
  split; [right; right; right; by left|].
  split; [by_evaluation|].
  exists (normalized broken_phone_tags).
  split; [by apply process_feature_properties_str|].
  rewrite normalized_other by by_evaluation.
  reflexivity.
Qed.

(** C5, as amended.  When the [addr:housenumber] tag is present and not
    empty, the result has an [address] field: the first non-empty of
    [addr:city] and [addr:place], a space, [addr:street] and a space when
    that tag is present and not empty, then the house number.  When the
    tag is absent or empty no address is computed: the result has an
    [address] key only if the tags have one, copied unchanged.  With
    street [Main], city [X] and house number [5] the address is
    [X Main 5]. *)
Theorem address_field (properties : gmap string json) (t : gmap string string) :
  properties !! "tags" = Some (str_dict t) →
  ∃ r, process_feature_properties (JObj properties) = Ok (JObj r) ∧
    (∀ housenumber,
       t !! "addr:housenumber" = Some housenumber → housenumber ≠ "" →
       r !! "address" = Some (JStr (address_of t housenumber))) ∧
    (t !! "addr:housenumber" = None ∨ t !! "addr:housenumber" = Some "" →
       r !! "address" = JStr <$> t !! "address") ∧
    (t !! "addr:street" = Some "Main" → t !! "addr:city" = Some "X" →
       t !! "addr:housenumber" = Some "5" →
       r !! "address" = Some (JStr "X Main 5")).
Proof.
  intros Htags. exists (normalized t).
  split; [by apply process_feature_properties_str|].
  rewrite normalized_address. split; [|split].
  - intros housenumber -> Hne. simpl.
    by destruct (String.eqb_spec housenumber "").
  - by intros [-> | ->].
  - intros Hstreet Hcity ->. unfold address_of. by rewrite Hstreet, Hcity.
Qed.

Lemma address_field_witness :
  pharmacy_properties !! "tags" = Some (str_dict pharmacy_tags) ∧
  ∃ r, process_feature_properties (JObj pharmacy_properties) = Ok (JObj r) ∧
       r !! "address" = Some (JStr "X Main 5").
Proof.
  split; [reflexivity|].
  destruct (address_field pharmacy_properties pharmacy_tags eq_refl)
    as (r & Hr & _ & _ & Haddress).
  exists r. split; [exact Hr|]. apply Haddress; reflexivity.
Defined.

(** C5 as the specification states it fails on tags whose house number is
    present and empty: the result has no [address] field. *)
Lemma blank_housenumber_no_address :
  blank_housenumber_tags !! "addr:housenumber" = Some "" ∧
  ∃ r, process_feature_properties (JObj {[ "tags" := str_dict blank_housenumber_tags ]}) =
         Ok (JObj r) ∧
       r !! "address" = None.
Proof.
  split; [reflexivity|].
  exists (normalized blank_housenumber_tags).
  split; [by apply process_feature_properties_str|].
  by rewrite normalized_address.
Qed.

(** C6.  The result has a [phone] field: the non-empty values among the
    tags [phone] and [contact:phone], in that order, joined by a
    semicolon; an empty or missing value leaves no empty segment, and the
    field is the empty string when both are missing. *)
Theorem phone_field (properties : gmap string json) (t : gmap string string) :
  properties !! "tags" = Some (str_dict t) →
  ∃ r, process_feature_properties (JObj properties) = Ok (JObj r) ∧
    r !! "phone" = Some (JStr (phone_of (t !! "phone") (t !! "contact:phone"))) ∧
    (t !! "phone" = Some "111" → t !! "contact:phone" = Some "222" →
       r !! "phone" = Some (JStr "111;222")) ∧
    (t !! "phone" = None → t !! "contact:phone" = Some "222" →
       r !! "phone" = Some (JStr "222")) ∧
    (t !! "phone" = None → t !! "contact:phone" = None →
       r !! "phone" = Some (JStr "")).
Proof.
  intros Htags. exists (normalized t).
  split; [by apply process_feature_properties_str|].
  rewrite normalized_phone. split; [done|].
  repeat split; by intros -> ->.
Qed.

Lemma phone_field_witness :
  pharmacy_properties !! "tags" = Some (str_dict pharmacy_tags) ∧
  ∃ r, process_feature_properties (JObj pharmacy_properties) = Ok (JObj r) ∧
       r !! "phone" = Some (JStr "111;222").
Proof.
  split; [reflexivity|].
  destruct (phone_field pharmacy_properties pharmacy_tags eq_refl)
    as (r & Hr & _ & Hboth & _).
  exists r. split; [exact Hr|]. apply Hboth; reflexivity.
Defined.

Lemma comprehension_err f l x e :
  x ∈ l → f x = Err e → ∃ e', comprehension f l = Err e'.
Proof.
  intros Hx Hfx. induction Hx as [x l | x y l _ IH]; cbn [comprehension].
  - rewrite Hfx. by eexists.
  - destruct (f y); [|by eexists]. destruct (IH Hfx) as [e' ->]. by eexists.
Qed.

(** C7.  Properties without the [tags] key make normalisation raise the
    [KeyError] of the missing key, and a collection that holds a feature
    with such properties makes [process_geojson] raise: nothing is
    returned for it, neither an empty nor a partial result. *)
Theorem missing_tags_raise (properties : gmap string json) :
  properties !! "tags" = None →
  process_feature_properties (JObj properties) = Err (KeyError "tags") ∧
  ∀ (data d : gmap string json) (features : list json),
    data !! "features" = Some (JArr features) →
    JObj d ∈ features →
    d !! "properties" = Some (JObj properties) →
    ∃ e, process_geojson (JObj data) = Err e.
Proof.
  intros Htags.
  assert (process_feature_properties (JObj properties) = Err (KeyError "tags")) as Hraise.
  { unfold process_feature_properties. cbn [Py.subscript]. by rewrite Htags. }
  split; [exact Hraise|].
  intros data d features Hfeatures Hin Hproperties.
  unfold process_geojson. cbn [Py.subscript]. rewrite Hfeatures.
  cbn [mbind result_bind Py.iter].
  destruct (comprehension_err process_feature features (JObj d) (KeyError "tags") Hin)
    as [e He].
  - unfold process_feature. cbn [Py.subscript]. rewrite Hproperties.
    cbn [mbind result_bind]. by rewrite Hraise.
  - rewrite He. by eexists.
Qed.

(** Properties as [json2geojson] would never give them: no tags. *)
Definition untagged_properties : gmap string json :=
  {[ "type" := JStr "node"; "id" := JInt 7 ]}.

Lemma missing_tags_raise_witness :
  untagged_properties !! "tags" = None ∧
  process_feature_properties (JObj untagged_properties) = Err (KeyError "tags").
Proof.
  split; [reflexivity|].
  apply (missing_tags_raise untagged_properties). reflexivity.
Defined.

(** ** [process_geojson] *)

Lemma comprehension_Forall2 f (R : json → json → Prop) l :
  Forall (λ x, ∃ y, f x = Ok y ∧ R x y) l →
  ∃ ys, comprehension f l = Ok ys ∧ Forall2 R l ys.
Proof.
  induction 1 as [|x l (y & Hy & HR) _ (ys & Hys & IH)]; cbn [comprehension].
  - exists []. by split.
  - rewrite Hy, Hys. exists (y :: ys). split; [done | by constructor].
Qed.

(** What [process_feature] makes of a raw feature. *)
Definition processed (feature out : json) : Prop :=
  ∃ d o p r,
    feature = JObj d ∧ out = JObj o ∧
    dom o = {[ "type"; "properties"; "geometry" ]} ∧
    o !! "type" = Some (JStr "Feature") ∧
    o !! "geometry" = d !! "geometry" ∧
    d !! "properties" = Some p ∧
    process_feature_properties p = Ok r ∧
    o !! "properties" = Some r.

Lemma process_feature_raw feature :
  raw_feature feature → ∃ out, process_feature feature = Ok out ∧ processed feature out.
Proof.
  intros (d & properties & t & geometry & -> & Hproperties & Htags & Hgeometry).
  pose proof (process_feature_properties_str _ _ Htags) as Hnorm.
  eexists. split.
  - unfold process_feature. cbn [Py.subscript]. rewrite Hproperties, Hgeometry.
    cbn [mbind result_bind]. rewrite Hnorm. reflexivity.
  - eexists d, _, (JObj properties), (JObj (normalized t)).
    split; [done|]. split; [done|].
    split; [rewrite !dom_insert_L, dom_singleton_L; set_solver|].
    by rewrite Hgeometry.
Qed.

(** C10.  On a collection of [n] raw features (each a [dict] with a
    geometry and with properties that hold string-valued tags),
    [process_geojson] returns a [FeatureCollection] of [n] features in
    the same order; the feature at each index has exactly the keys
    [type], [properties] and [geometry], its geometry is that of the
    input feature at that index and its properties are the normalised
    properties of that feature.  Any other key of the input feature is
    dropped. *)
Theorem process_geojson_frame (data : gmap string json) (features : list json) :
  data !! "features" = Some (JArr features) →
  Forall raw_feature features →
  ∃ outs,
    process_geojson (JObj data) = Ok (feature_collection outs) ∧
    length outs = length features ∧
    ∀ i (d : gmap string json), features !! i = Some (JObj d) →
      ∃ o p r,
        outs !! i = Some (JObj o) ∧
        dom o = {[ "type"; "properties"; "geometry" ]} ∧
        o !! "type" = Some (JStr "Feature") ∧
        o !! "geometry" = d !! "geometry" ∧
        d !! "properties" = Some p ∧
        process_feature_properties p = Ok r ∧
        o !! "properties" = Some r.
Proof.
  intros Hfeatures Hraw.
  destruct (comprehension_Forall2 process_feature processed features) as (outs & Houts & Hall).
  { eapply Forall_impl; [exact Hraw|]. apply process_feature_raw. }
  exists outs. split; [|split].
  - unfold process_geojson. cbn [Py.subscript]. rewrite Hfeatures.
    cbn [mbind result_bind Py.iter]. by rewrite Houts.
  - symmetry. by eapply Forall2_length.
  - intros i d Hi.
    destruct (Forall2_lookup_l _ _ _ _ _ Hall Hi)
      as (out & Hout & d' & o & p & r & [= <-] & -> & ?).
    by exists o, p, r.
Qed.

(** A raw feature that also carries an [id] at its top level. *)
Definition pharmacy_feature : json :=
  JObj {[ "type" := JStr "Feature"; "id" := JStr "node/42";
          "properties" := JObj pharmacy_properties;
          "geometry" := JObj {[ "type" := JStr "Point";
                                "coordinates" := JArr [JInt 22; JInt 51] ]} ]}.

Definition station_feature : json :=
  JObj {[ "type" := JStr "Feature";
          "properties" := JObj {[ "tags" := str_dict station_tags ]};
          "geometry" := JNull ]}.

Definition sample_data : gmap string json :=
  {[ "type" := JStr "FeatureCollection";
     "features" := JArr [pharmacy_feature; station_feature] ]}.

Lemma pharmacy_feature_raw : raw_feature pharmacy_feature.
Proof.
  eexists _, pharmacy_properties, pharmacy_tags, _.
  split; [reflexivity|]. repeat split; reflexivity.
Defined.

Lemma station_feature_raw : raw_feature station_feature.
Proof.
  eexists _, _, station_tags, _.
  split; [reflexivity|]. repeat split; reflexivity.
Defined.

Lemma process_geojson_frame_witness :
  sample_data !! "features" = Some (JArr [pharmacy_feature; station_feature]) ∧
  Forall raw_feature [pharmacy_feature; station_feature] ∧
  ∃ outs, process_geojson (JObj sample_data) = Ok (feature_collection outs) ∧
          length outs = 2.
Proof.
  assert (Forall raw_feature [pharmacy_feature; station_feature]) as Hraw.
  { repeat constructor; [apply pharmacy_feature_raw | apply station_feature_raw]. }
  split; [reflexivity|]. split; [exact Hraw|].
  destruct (process_geojson_frame sample_data [pharmacy_feature; station_feature]
              eq_refl Hraw) as (outs & Houts & Hlen & _).
  exists outs. split; [exact Houts | exact Hlen].
Defined.

(** ** The layers of [split_geojson] *)

Lemma eq_str_get_default (p : gmap string json) key s :
  s ≠ "" →
  Py.eq_str (Py.get_default p key (JStr "")) s = true ↔ p !! key = Some (JStr s).
Proof.
  intros Hs. unfold Py.get_default.
  destruct (p !! key) as [v|]; simpl.
  - destruct v; simpl; try (split; [done | by intros [=]]).
    rewrite String.eqb_eq. split; [by intros -> | by intros [= ->]].
  - by destruct s.
Qed.

Ltac router p key s :=
  let H := fresh "H" in
  pose proof (eq_str_get_default p key s ltac:(done)) as H;
  destruct (Py.eq_str (Py.get_default p key (JStr "")) s).

Ltac open_router :=
  unfold decides, layer_test, routers;
  cbn [Odict.get String.eqb Ascii.eqb Bool.eqb];
  unfold Py.dict_get, Py.in_strs;
  cbn [Py.items mbind result_bind existsb].

(** C3.  The table has the nine layers, and on any properties each
    layer's test answers exactly the question of the table; a key that is
    missing equals no value, so it never matches.  A feature belongs to a
    layer exactly when the layer's test is true of its properties. *)
Theorem routers_table (p : gmap string json) :
  routers.*1 =
    [ "reception_points"; "information_points"; "blood_donation_points";
      "social_facilities"; "pharmacies"; "hospitals"; "consulates";
      "train_stations"; "bus_stations" ] ∧
  decides (layer_test "reception_points" (JObj p))
    (p !! "social_facility:for" = Some (JStr "refugee") ∨
     p !! "social_facility:for" = Some (JStr "refugees")) ∧
  decides (layer_test "information_points" (JObj p))
    (p !! "information:for" = Some (JStr "refugee") ∨
     p !! "information:for" = Some (JStr "refugees")) ∧
  decides (layer_test "blood_donation_points" (JObj p))
    (p !! "healthcare" = Some (JStr "blood_donation")) ∧
  decides (layer_test "social_facilities" (JObj p))
    (p !! "social_facility" = Some (JStr "food_bank") ∨
     p !! "social_facility" = Some (JStr "soup_kitchen")) ∧
  decides (layer_test "pharmacies" (JObj p))
    (p !! "amenity" = Some (JStr "pharmacy")) ∧
  decides (layer_test "hospitals" (JObj p))
    (p !! "amenity" = Some (JStr "hospital")) ∧
  decides (layer_test "consulates" (JObj p))
    (p !! "office" = Some (JStr "diplomatic") ∧ p !! "country" = Some (JStr "UA")) ∧
  decides (layer_test "train_stations" (JObj p))
    (p !! "building" = Some (JStr "train_station")) ∧
  decides (layer_test "bus_stations" (JObj p))
    (p !! "amenity" = Some (JStr "bus_station")) ∧
  (∀ layer_name (d : gmap string json),
     d !! "properties" = Some (JObj p) →
     in_layer layer_name (JObj d) = true ↔ layer_test layer_name (JObj p) = Ok true).
Proof.
  split; [reflexivity|].
  repeat match goal with |- decides _ _ ∧ _ => split end; [open_router .. | ].
  - router p "social_facility:for" "refugee"; router p "social_facility:for" "refugees";
      simpl; intuition congruence.
  - router p "information:for" "refugee"; router p "information:for" "refugees";
      simpl; intuition congruence.
  - router p "healthcare" "blood_donation"; intuition congruence.
  - router p "social_facility" "food_bank"; router p "social_facility" "soup_kitchen";
      simpl; intuition congruence.
  - router p "amenity" "pharmacy"; intuition congruence.
  - router p "amenity" "hospital"; intuition congruence.
  - router p "office" "diplomatic"; router p "country" "UA"; intuition congruence.
  - router p "building" "train_station"; intuition congruence.
  - router p "amenity" "bus_station"; intuition congruence.
  - intros layer_name d Hp. unfold in_layer. cbn [Py.subscript]. rewrite Hp.
    cbn [mbind result_bind]. destruct (layer_test layer_name (JObj p)) as [[]|];
      intuition congruence.
Qed.

(** *** The ordered dictionary *)

Lemma odict_get_set {A} (d : Odict.t A) key v key' :
  Odict.get (Odict.set d key v) key' =
  if decide (key = key') then Some v else Odict.get d key'.
Proof.
  induction d as [|[k x] d IH]; cbn [Odict.set Odict.get].
  - destruct (String.eqb_spec key key'); by case_decide.
  - destruct (String.eqb_spec k key) as [-> | Hk]; cbn [Odict.get].
    + destruct (String.eqb_spec key key'); by case_decide.
    + rewrite IH. destruct (String.eqb_spec k key'); [|done].
      case_decide; congruence.
Qed.

Lemma odict_get_keys {A} (d : Odict.t A) key :
  key ∈ Odict.keys d ↔ is_Some (Odict.get d key).
Proof.
  unfold Odict.keys. induction d as [|[k x] d IH]; cbn [Odict.get fmap list_fmap fst].
  - rewrite elem_of_nil. split; [done | by intros [? ?]].
  - rewrite elem_of_cons, IH. destruct (String.eqb_spec k key) as [-> | Hk].
    + split; [by eexists | by left].
    + split; [by intros [? | ?] | by right].
Qed.

Lemma odict_get_None {A} (d : Odict.t A) key :
  key ∉ Odict.keys d → Odict.get d key = None.
Proof.
  rewrite odict_get_keys. destruct (Odict.get d key); [|done].
  intros []. by eexists.
Qed.

Lemma odict_set_NoDup {A} (d : Odict.t A) key v :
  NoDup (Odict.keys d) → NoDup (Odict.keys (Odict.set d key v)).
Proof.
  unfold Odict.keys. induction d as [|[k x] d IH]; cbn [Odict.set fmap list_fmap fst].
  - intros _. apply NoDup_singleton.
  - rewrite NoDup_cons. intros [Hk Hd].
    destruct (String.eqb_spec k key) as [-> | Hne]; cbn [fmap list_fmap fst].
    + by apply NoDup_cons.
    + apply NoDup_cons. split; [|by apply IH].
      change (k ∉ Odict.keys (Odict.set d key v)). rewrite odict_get_keys, odict_get_set.
      case_decide; [congruence|]. by rewrite <- odict_get_keys.
Qed.

Lemma for_each_invariant {A S} (I : S → Prop) (body : S → A → result S) l :
  (∀ s x s', I s → body s x = Ok s' → I s') →
  ∀ s s', I s → for_each body l s = Ok s' → I s'.
Proof.
  intros Hbody. induction l as [|x l IH]; intros s s' Hs; cbn [for_each].
  - by intros [= <-].
  - destruct (body s x) as [s1|] eqn:Hs1; [|done]. cbn [mbind result_bind].
    apply IH. by eapply Hbody.
Qed.

(** *** One feature through the table *)

Definition features_of (layer : option json) : list json :=
  match layer with
  | Some (JObj d) =>
      match d !! "features" with
      | Some (JArr l) => l
      | _ => []
      end
  | _ => []
  end.

Definition passes (test : json → result bool) (p : json) : bool :=
  match test p with
  | Ok true => true
  | _ => false
  end.

(** The layers hold collections only. *)
Definition collections (results : Odict.t json) : Prop :=
  ∀ layer_name layer, Odict.get results layer_name = Some layer →
    ∃ l, layer = feature_collection l.

(** What a layer is after the given features went through the table. *)
Definition collected (layer_name : string) (features : list json) : option json :=
  match List.filter (in_layer layer_name) features with
  | [] => None
  | l => Some (feature_collection l)
  end.

Lemma truthy_feature_collection l : Py.truthy (feature_collection l) = true.
Proof.
  unfold feature_collection. cbn [Py.truthy]. apply negb_true_iff, bool_decide_eq_false.
  apply insert_non_empty.
Qed.

Lemma append_feature_collection l feature :
  append_feature (feature_collection l) feature = Ok (feature_collection (l ++ [feature])).
Proof.
  unfold append_feature, feature_collection. cbn [Py.subscript].
  rewrite lookup_insert_ne by done. rewrite lookup_singleton_eq.
  cbn [mbind result_bind]. reflexivity.
Qed.

Lemma features_of_collection l : features_of (Some (feature_collection l)) = l.
Proof.
  unfold features_of, feature_collection.
  rewrite lookup_insert_ne by done. by rewrite lookup_singleton_eq.
Qed.

Lemma route_feature_step (d p : gmap string json) results layer_name test b :
  d !! "properties" = Some (JObj p) →
  test (JObj p) = Ok b →
  collections results →
  route_feature (JObj d) results (layer_name, test) =
  Ok (if b
      then Odict.set results layer_name
             (feature_collection (features_of (Odict.get results layer_name) ++ [JObj d]))
      else results).
Proof.
  intros Hp Htest Hres. unfold route_feature. cbn [Py.subscript].
  rewrite Hp. cbn [mbind result_bind]. rewrite Htest. cbn [mbind result_bind].
  destruct b; [|done].
  destruct (Odict.get results layer_name) as [layer|] eqn:Hlayer;
    cbn [default from_option id].
  - destruct (Hres _ _ Hlayer) as [l ->].
    rewrite truthy_feature_collection, append_feature_collection.
    by rewrite features_of_collection.
  - done.
Qed.

Lemma route_all (d p : gmap string json) rs results :
  d !! "properties" = Some (JObj p) →
  NoDup rs.*1 →
  Forall (λ r, ∃ b, r.2 (JObj p) = Ok b) rs →
  collections results →
  ∃ results',
    for_each (route_feature (JObj d)) rs results = Ok results' ∧
    ∀ layer_name,
      Odict.get results' layer_name =
      if from_option (λ test, passes test (JObj p)) false (Odict.get rs layer_name)
      then Some (feature_collection
                   (features_of (Odict.get results layer_name) ++ [JObj d]))
      else Odict.get results layer_name.
Proof.
  intros Hp. revert results.
  induction rs as [|[n test] rs IH]; intros results Hnodup Htotal Hres.
  - exists results. by split.
  - apply NoDup_cons in Hnodup as [Hn Hnodup].
    apply Forall_cons in Htotal as [[b Hb] Htotal]. simpl in Hb.
    cbn [for_each]. rewrite (route_feature_step d p results n test b Hp Hb Hres).
    cbn [mbind result_bind].
    set (results1 := if b then _ else results).
    assert (∀ layer_name, Odict.get results1 layer_name =
              if decide (n = layer_name)
              then (if b then Some (feature_collection
                                      (features_of (Odict.get results n) ++ [JObj d]))
                    else Odict.get results n)
              else Odict.get results layer_name) as Hget1.
    { intros layer_name. subst results1. destruct b.
      - by rewrite odict_get_set.
      - case_decide; by subst. }
    destruct (IH results1 Hnodup Htotal) as (results' & Hloop & Hget).
    { intros layer_name layer. rewrite Hget1. case_decide; [|apply Hres].
      destruct b; [intros [= <-]; by eexists | apply Hres]. }
    exists results'. split; [exact Hloop|].
    intros layer_name. rewrite Hget, !Hget1. cbn [Odict.get].
    destruct (String.eqb_spec n layer_name) as [<- | Hne].
    + rewrite (odict_get_None rs n Hn). cbn [from_option].
      rewrite decide_True by done. unfold passes. rewrite Hb. by destruct b.
    + by rewrite decide_False by done.
Qed.

(** *** All features through the table *)

Lemma routers_total (p : gmap string json) :
  Forall (λ r, ∃ b, r.2 (JObj p) = Ok b) routers.
Proof.
  unfold routers. repeat (apply Forall_cons; split); [..|apply Forall_nil];
    cbn [snd]; unfold Py.dict_get; cbn [Py.items mbind result_bind];
    try (eexists; reflexivity).
  destruct (Py.eq_str _ _); eexists; reflexivity.
Qed.

Lemma routers_NoDup : NoDup routers.*1.
Proof. by_evaluation. Qed.

Lemma in_layer_properties (d p : gmap string json) layer_name :
  d !! "properties" = Some (JObj p) →
  in_layer layer_name (JObj d) =
  from_option (λ test, passes test (JObj p)) false (Odict.get routers layer_name).
Proof.
  intros Hp. unfold in_layer, layer_test. cbn [Py.subscript]. rewrite Hp.
  cbn [mbind result_bind]. by destruct (Odict.get routers layer_name).
Qed.

Lemma collected_snoc layer_name features feature :
  collected layer_name (features ++ [feature]) =
  if in_layer layer_name feature
  then Some (feature_collection
               (features_of (collected layer_name features) ++ [feature]))
  else collected layer_name features.
Proof.
  unfold collected. rewrite List.filter_app. cbn [List.filter].
  destruct (in_layer layer_name feature); [|by rewrite app_nil_r].
  destruct (List.filter _ features) as [|x l]; [done|].
  by rewrite features_of_collection.
Qed.

Lemma collected_collections results features :
  (∀ layer_name, Odict.get results layer_name = collected layer_name features) →
  collections results.
Proof.
  intros Hres layer_name layer. rewrite Hres. unfold collected.
  destruct (List.filter _ features); [done|]. intros [= <-]. by eexists.
Qed.

Lemma split_loop features :
  ∀ seen results,
    Forall has_properties features →
    (∀ layer_name, Odict.get results layer_name = collected layer_name seen) →
    ∃ results',
      for_each (λ results feature, for_each (route_feature feature) routers results)
        features results = Ok results' ∧
      ∀ layer_name, Odict.get results' layer_name = collected layer_name (seen ++ features).
Proof.
  induction features as [|feature features IH]; intros seen results Hall Hres.
  - exists results. split; [done|]. intros layer_name. by rewrite app_nil_r.
  - apply Forall_cons in Hall as [(d & p & -> & Hp) Hall].
    destruct (route_all d p routers results Hp routers_NoDup (routers_total p))
      as (results1 & Hinner & Hget1); [by eapply collected_collections|].
    cbn [for_each]. rewrite Hinner. cbn [mbind result_bind].
    destruct (IH (seen ++ [JObj d]) results1 Hall) as (results' & Hloop & Hget).
    { intros layer_name.
      by rewrite Hget1, collected_snoc, (in_layer_properties d p), Hres. }
    exists results'. split; [exact Hloop|].
    intros layer_name. by rewrite Hget, <- app_assoc.
Qed.

Lemma route_feature_NoDup feature results router results' :
  NoDup (Odict.keys results) →
  route_feature feature results router = Ok results' →
  NoDup (Odict.keys results').
Proof.
  intros Hnodup. unfold route_feature. destruct router as [layer_name test].
  destruct (Py.subscript feature "properties") as [p|]; [|done]. cbn [mbind result_bind].
  destruct (test p) as [[]|]; cbn [mbind result_bind]; [| by intros [= <-] | done].
  destruct (Py.truthy _).
  - destruct (append_feature _ _); [|done]. cbn [mbind result_bind].
    intros [= <-]. by apply odict_set_NoDup.
  - intros [= <-]. by apply odict_set_NoDup.
Qed.

Lemma filter_nonempty (f : json → bool) l :
  List.filter f l ≠ [] ↔ ∃ x, x ∈ l ∧ f x = true.
Proof.
  split.
  - destruct (List.filter f l) as [|x l'] eqn:Hfilter; [done|]. intros _.
    assert (In x (List.filter f l)) as Hx by (rewrite Hfilter; by left).
    apply filter_In in Hx as [Hx Hfx]. exists x. by rewrite list_elem_of_In.
  - intros (x & Hx & Hfx) Hnil.
    assert (In x (List.filter f l)) as Hin
      by (apply filter_In; by rewrite <- list_elem_of_In).
    by rewrite Hnil in Hin.
Qed.

(** C4.  On a collection whose features all have a properties [dict],
    [split_geojson] returns a mapping with one entry per key; its keys are
    exactly the layer names that at least one feature satisfies (no layer
    is there with an empty collection, and every key is a layer of the
    table); the layer of a key is the [FeatureCollection] of exactly the
    features that satisfy the layer's test, in the order of the input.
    So a feature is in every layer it satisfies and in no other. *)
Theorem split_geojson_layers (geojson : gmap string json) (features : list json) :
  geojson !! "features" = Some (JArr features) →
  Forall has_properties features →
  ∃ results,
    split_geojson (JObj geojson) = Ok results ∧
    NoDup (Odict.keys results) ∧
    (∀ layer_name,
       layer_name ∈ Odict.keys results ↔
       ∃ feature, feature ∈ features ∧ in_layer layer_name feature = true) ∧
    (∀ layer_name, layer_name ∈ Odict.keys results → layer_name ∈ routers.*1) ∧
    (∀ layer_name,
       Odict.get results layer_name =
       match List.filter (in_layer layer_name) features with
       | [] => None
       | l => Some (feature_collection l)
       end) ∧
    (∀ layer_name feature,
       feature ∈ features → in_layer layer_name feature = true →
       ∃ l, Odict.get results layer_name = Some (feature_collection l) ∧ feature ∈ l) ∧
    (∀ layer_name feature l,
       Odict.get results layer_name = Some (feature_collection l) → feature ∈ l →
       feature ∈ features ∧ in_layer layer_name feature = true).
Proof.
  intros Hfeatures Hall.
  destruct (split_loop features [] [] Hall) as (results & Hloop & Hget); [done|].
  cbn [app] in Hget. fold (collected) in Hget.
  assert (split_geojson (JObj geojson) = Ok results) as Hsplit.
  { unfold split_geojson. cbn [Py.subscript]. rewrite Hfeatures.
    cbn [mbind result_bind Py.iter]. exact Hloop. }
  assert (∀ layer_name,
            layer_name ∈ Odict.keys results ↔
            ∃ feature, feature ∈ features ∧ in_layer layer_name feature = true) as Hkeys.
  { intros layer_name. rewrite odict_get_keys, Hget, <- filter_nonempty.
    unfold collected. destruct (List.filter _ features).
    - split; [by intros [? ?] | done].
    - split; [done | by eexists]. }
  exists results. split; [exact Hsplit|]. split; [|split; [exact Hkeys|split; [|split; [exact Hget|split]]]].
  - eapply (for_each_invariant (λ r, NoDup (Odict.keys r))); [| |exact Hloop].
    + intros s feature s' Hs.
      apply (for_each_invariant (λ r, NoDup (Odict.keys r))); [|exact Hs].
      intros s1 router s2. apply route_feature_NoDup.
    + apply NoDup_nil_2.
  - intros layer_name (feature & _ & Hin)%Hkeys.
    destruct (decide (layer_name ∈ routers.*1)) as [|Hno]; [done|].
    unfold in_layer, layer_test in Hin.
    rewrite (odict_get_None routers layer_name Hno) in Hin.
    by destruct (Py.subscript feature "properties").
  - intros layer_name feature Hfeature Hin. rewrite Hget. unfold collected.
    assert (In feature (List.filter (in_layer layer_name) features)) as Hfiltered
      by (apply filter_In; by rewrite <- list_elem_of_In).
    destruct (List.filter _ features) as [|x l] eqn:Hl; [done|].
    exists (x :: l). split; [done|]. by apply list_elem_of_In.
  - intros layer_name feature l. rewrite Hget. unfold collected.
    destruct (List.filter _ features) as [|x l'] eqn:Hl; [done|].
    intros Hfc Hfeature.
    assert (l = x :: l') as ->.
    { apply (f_equal features_of) in Hfc. by rewrite !features_of_collection in Hfc. }
    rewrite <- Hl in Hfeature. apply list_elem_of_In, filter_In in Hfeature.
    by rewrite list_elem_of_In.
Qed.

(** Two normalised features: a pharmacy that also collects blood, and a
    kiosk that belongs to no layer. *)
Definition pharmacy_out : json :=
  JObj {[ "type" := JStr "Feature";
          "properties" := JObj {[ "amenity" := JStr "pharmacy";
                                  "healthcare" := JStr "blood_donation";
                                  "phone" := JStr "" ]};
          "geometry" := JNull ]}.

Definition kiosk_out : json :=
  JObj {[ "type" := JStr "Feature";
          "properties" := JObj {[ "amenity" := JStr "kiosk"; "phone" := JStr "" ]};
          "geometry" := JNull ]}.

Definition sample_processed : gmap string json :=
  {[ "type" := JStr "FeatureCollection";
     "features" := JArr [kiosk_out; pharmacy_out] ]}.

Lemma pharmacy_out_has_properties : has_properties pharmacy_out.
Proof. eexists _, _. split; reflexivity. Defined.

Lemma kiosk_out_has_properties : has_properties kiosk_out.
Proof. eexists _, _. split; reflexivity. Defined.

Lemma split_geojson_layers_witness :
  sample_processed !! "features" = Some (JArr [kiosk_out; pharmacy_out]) ∧
  Forall has_properties [kiosk_out; pharmacy_out] ∧
  ∃ results,
    split_geojson (JObj sample_processed) = Ok results ∧
    Odict.get results "pharmacies" = Some (feature_collection [pharmacy_out]) ∧
    Odict.get results "blood_donation_points" = Some (feature_collection [pharmacy_out]) ∧
    Odict.get results "hospitals" = None.
Proof.
  assert (Forall has_properties [kiosk_out; pharmacy_out]) as Hall.
  { repeat constructor; [apply kiosk_out_has_properties | apply pharmacy_out_has_properties]. }
  split; [reflexivity|]. split; [exact Hall|].
  destruct (split_geojson_layers sample_processed [kiosk_out; pharmacy_out] eq_refl Hall)
    as (results & Hsplit & _ & _ & _ & Hget & _).
  exists results. split; [exact Hsplit|].
  rewrite !Hget. repeat split; vm_compute; reflexivity.
Defined.

(** ** The directory gate of the [__main__] block *)





(** A world without network, where [os.stat] answers the same for every
    path; a finite float is written [1.5] and a string is put between
    quotes as it is. *)
Fixpoint plain_path_str (p : path) : string :=
  match p with
  | Path s => s
  | JoinPath p name => plain_path_str p +:+ "/" +:+ name
  end.

Definition plain_literal (s : string) : string :=
  String QUOTE (s +:+ String QUOTE "").

Definition offline_world (answer : result file_kind) : World :=
  {| this_files_dir := Path "/srv/ua-2022-map";
     stat := λ _, answer;
     path_str := plain_path_str;
     http_post := λ _ _, Err HTTPError;
     json2geojson := λ data, Ok data;
     open_w := λ _, Ok tt;
     float_repr := λ _, "1.5";
     encode_str := plain_literal |}.




(** ** [save_json] and the values that are no numbers of JSON *)

(** Whether a value holds a NaN or an infinity somewhere. *)
Fixpoint has_nonfinite (v : json) : bool :=
  match v with
  | JFloat S754_nan | JFloat (S754_infinity _) => true
  | JArr l => existsb has_nonfinite l
  | JObj d => existsb snd (map_to_list (has_nonfinite <$> d))
  | _ => false
  end.

(** The compact text of a value: its items separated by a comma, a key
    and its value by a colon, and nothing else between them. *)
Fixpoint compact_text (float_repr : spec_float → string) (encode_str : string → string)
    (v : json) : string :=
  match v with
  | JNull => "null"
  | JBool true => "true"
  | JBool false => "false"
  | JInt z => pretty z
  | JFloat f => float_repr f
  | JStr s => encode_str s
  | JArr l => "[" +:+ String.concat "," (compact_text float_repr encode_str <$> l) +:+ "]"
  | JObj d =>
      "{" +:+
      String.concat ","
        ((λ kv, encode_str kv.1 +:+ ":" +:+ kv.2)
           <$> map_to_list (compact_text float_repr encode_str <$> d)) +:+
      "}"
  end.

Fixpoint json_size (v : json) : nat :=
  match v with
  | JArr l => S (foldr (λ v n, json_size v + n) 0 l)
  | JObj d => S (map_fold (λ _ v n, json_size v + n) 0 d)
  | _ => 1
  end.

Lemma json_size_lookup (d : gmap string json) key v :
  d !! key = Some v → json_size v < json_size (JObj d).
Proof.
  intros Hv. cbn [json_size]. rewrite <- (insert_delete_id d key v Hv).
  rewrite map_fold_insert_L; [lia | intros; lia | apply lookup_delete_eq].
Qed.

Lemma json_size_elem l v : v ∈ l → json_size v < json_size (JArr l).
Proof. cbn [json_size]. induction 1; cbn [foldr]; lia. Qed.

(** Induction on a value, through its items and its values. *)
Lemma json_ind_deep (P : json → Prop) :
  P JNull → (∀ b, P (JBool b)) → (∀ z, P (JInt z)) → (∀ f, P (JFloat f)) →
  (∀ s, P (JStr s)) →
  (∀ l, Forall P l → P (JArr l)) →
  (∀ d : gmap string json, map_Forall (λ _, P) d → P (JObj d)) →
  ∀ v, P v.
Proof.
  intros Hnull Hbool Hint Hfloat Hstr Harr Hobj v.
  remember (json_size v) as n eqn:Hn. revert v Hn.
  induction (lt_wf n) as [n _ IH]. intros v ->.
  destruct v as [| | | | |l|d]; auto.
  - apply Harr, Forall_forall. intros v Hv.
    eapply IH; [|reflexivity]. by apply json_size_elem.
  - apply Hobj. intros key v Hv.
    eapply IH; [|reflexivity]. by eapply json_size_lookup.
Qed.

(** The encoder of [save_json]: no NaN, separators [,] and [:]. *)
Definition encode (float_repr : spec_float → string) (encode_str : string → string)
    (v : json) : Json.written :=
  Json.iterencode float_repr encode_str false "," ":" v.

(** What the encoder does on a value: the compact text when the value
    holds finite numbers only, [ValueError] otherwise. *)
Definition encoded (float_repr : spec_float → string) (encode_str : string → string)
    (v : json) : Prop :=
  if has_nonfinite v
  then (encode float_repr encode_str v).2 = Err ValueError
  else encode float_repr encode_str v = Json.done (compact_text float_repr encode_str v).

Lemma append_nil_l s : "" +:+ s = s.
Proof. reflexivity. Qed.

Lemma and_then_done text rest :
  Json.and_then text (Json.done rest) = Json.done (text +:+ rest).
Proof. reflexivity. Qed.

Lemma seq_done text rest : Json.seq (Json.done text) rest = Json.and_then text rest.
Proof. reflexivity. Qed.

Lemma seq_err (first rest : Json.written) e :
  first.2 = Err e → (Json.seq first rest).2 = Err e.
Proof. intros H. unfold Json.seq. by rewrite H. Qed.

Lemma scalar_encode float_repr encode_str v r :
  Json.scalar float_repr encode_str false v = Some r →
  encode float_repr encode_str v =
  match r with
  | Ok text => Json.done text
  | Err e => ("", Err e)
  end.
Proof.
  destruct v as [|[]| | | |l|d]; try done; intros [= <-]; reflexivity.
Qed.

Lemma scalar_encoded float_repr encode_str v r :
  Json.scalar float_repr encode_str false v = Some r →
  encoded float_repr encode_str v →
  r = if has_nonfinite v then Err ValueError
      else Ok (compact_text float_repr encode_str v).
Proof.
  intros Hr. unfold encoded. rewrite (scalar_encode _ _ _ _ Hr).
  unfold Json.done. destruct (has_nonfinite v), r as [text|e]; cbn; congruence.
Qed.

(** The text of the items of a list after [buf]. *)
Fixpoint items_text (float_repr : spec_float → string) (encode_str : string → string)
    (buf : string) (l : list json) : string :=
  match l with
  | [] => "]"
  | v :: rest =>
      buf +:+ compact_text float_repr encode_str v +:+
      items_text float_repr encode_str "," rest
  end.

Lemma items_text_concat float_repr encode_str buf v rest :
  buf +:+ String.concat "," (compact_text float_repr encode_str <$> v :: rest) +:+ "]" =
  items_text float_repr encode_str buf (v :: rest).
Proof.
  revert buf v. induction rest as [|v' rest IH]; intros buf v; [done|].
  cbn [items_text] in *. rewrite <- (IH "," v').
  cbn [fmap list_fmap String.concat]. by rewrite !append_assoc.
Qed.

Lemma list_items_finite float_repr encode_str l :
  Forall (encoded float_repr encode_str) l →
  existsb has_nonfinite l = false →
  ∀ buf,
    Json.list_items (Json.scalar float_repr encode_str false)
      (Json.iterencode float_repr encode_str false "," ":") "," buf l =
    Json.done (items_text float_repr encode_str buf l).
Proof.
  induction 1 as [|v l Hv _ IH]; intros Hfinite buf; [done|].
  cbn [existsb] in Hfinite. apply orb_false_iff in Hfinite as [Hfinite Hrest].
  cbn [Json.list_items items_text].
  destruct (Json.scalar float_repr encode_str false v) as [r|] eqn:Hr.
  - rewrite (scalar_encoded _ _ _ _ Hr Hv), Hfinite, (IH Hrest), and_then_done.
    by rewrite append_assoc.
  - unfold encoded in Hv. rewrite Hfinite in Hv. unfold encode in Hv.
    by rewrite Hv, (IH Hrest), seq_done, !and_then_done.
Qed.

Lemma list_items_nonfinite float_repr encode_str l :
  Forall (encoded float_repr encode_str) l →
  existsb has_nonfinite l = true →
  ∀ buf,
    (Json.list_items (Json.scalar float_repr encode_str false)
       (Json.iterencode float_repr encode_str false "," ":") "," buf l).2 =
    Err ValueError.
Proof.
  induction 1 as [|v l Hv _ IH]; intros Hsome buf; [done|].
  cbn [existsb] in Hsome. cbn [Json.list_items].
  destruct (has_nonfinite v) eqn:Hfinite.
  - destruct (Json.scalar float_repr encode_str false v) as [r|] eqn:Hr.
    + by rewrite (scalar_encoded _ _ _ _ Hr Hv), Hfinite.
    + unfold encoded in Hv. rewrite Hfinite in Hv. cbn [Json.and_then snd].
      by apply seq_err.
  - cbn [orb] in Hsome.
    destruct (Json.scalar float_repr encode_str false v) as [r|] eqn:Hr.
    + rewrite (scalar_encoded _ _ _ _ Hr Hv), Hfinite. cbn [Json.and_then snd].
      by apply IH.
    + unfold encoded in Hv. rewrite Hfinite in Hv. unfold encode in Hv.
      rewrite Hv, seq_done. cbn [Json.and_then snd]. by apply IH.
Qed.

(** The text of the items of a [dict]. *)
Fixpoint dict_text (float_repr : spec_float → string) (encode_str : string → string)
    (first : bool) (items : list (string * json)) : string :=
  match items with
  | [] => "}"
  | (key, v) :: rest =>
      ((if first then "" else ",") +:+ encode_str key +:+ ":") +:+
      compact_text float_repr encode_str v +:+
      dict_text float_repr encode_str false rest
  end.

Lemma dict_text_concat float_repr encode_str (first : bool) item rest :
  (if first then "" else ",") +:+
  String.concat ","
    ((λ kv : string * string, encode_str kv.1 +:+ ":" +:+ kv.2)
       <$> (prod_map id (compact_text float_repr encode_str) <$> item :: rest)) +:+ "}" =
  dict_text float_repr encode_str first (item :: rest).
Proof.
  revert first item. induction rest as [|item' rest IH]; intros first [key v].
  - cbn [fmap list_fmap String.concat dict_text prod_map fst snd id].
    by rewrite !append_assoc.
  - cbn [dict_text] in *. rewrite <- (IH false item').
    cbn [fmap list_fmap String.concat prod_map fst snd id]. by rewrite !append_assoc.
Qed.

Lemma dict_items_finite float_repr encode_str (items : list (string * json)) :
  Forall (λ kv, encoded float_repr encode_str kv.2) items →
  existsb snd (prod_map id has_nonfinite <$> items) = false →
  ∀ first,
    Json.dict_items encode_str "," ":" first
      (prod_map id (Json.iterencode float_repr encode_str false "," ":") <$> items) =
    Json.done (dict_text float_repr encode_str first items).
Proof.
  induction 1 as [|[key v] items Hv _ IH]; intros Hfinite first; [done|].
  cbn [fmap list_fmap existsb prod_map fst snd id] in Hfinite.
  apply orb_false_iff in Hfinite as [Hfinite Hrest].
  cbn [fmap list_fmap Json.dict_items dict_text prod_map fst snd id].
  cbn [snd] in Hv. unfold encoded in Hv. rewrite Hfinite in Hv. unfold encode in Hv.
  by rewrite Hv, (IH Hrest), seq_done, !and_then_done.
Qed.

Lemma dict_items_nonfinite float_repr encode_str (items : list (string * json)) :
  Forall (λ kv, encoded float_repr encode_str kv.2) items →
  existsb snd (prod_map id has_nonfinite <$> items) = true →
  ∀ first,
    (Json.dict_items encode_str "," ":" first
       (prod_map id (Json.iterencode float_repr encode_str false "," ":") <$> items)).2 =
    Err ValueError.
Proof.
  induction 1 as [|[key v] items Hv _ IH]; intros Hsome first; [done|].
  cbn [fmap list_fmap existsb prod_map fst snd id] in Hsome.
  cbn [fmap list_fmap Json.dict_items prod_map fst snd id Json.and_then].
  cbn [snd] in Hv. unfold encoded in Hv.
  destruct (has_nonfinite v) eqn:Hfinite.
  - by apply seq_err.
  - cbn [orb] in Hsome. unfold encode in Hv. rewrite Hv, seq_done.
    cbn [Json.and_then snd]. by apply IH.
Qed.

(** On every value the encoder writes the compact text, or stops with
    [ValueError] at a number that is not finite. *)
Lemma encode_encoded float_repr encode_str v : encoded float_repr encode_str v.
Proof.
  induction v as [|[]| |[[]|[]| |] | |l IH|d IH] using json_ind_deep; try done.
  - unfold encoded. destruct l as [|v l]; [done|].
    destruct (has_nonfinite (JArr (v :: l))) eqn:Hfinite.
    + by apply list_items_nonfinite.
    + unfold encode. cbn [Json.iterencode compact_text].
      rewrite (list_items_finite _ _ _ IH Hfinite). by rewrite items_text_concat.
  - apply map_Forall_to_list in IH.
    assert (Forall (λ kv, encoded float_repr encode_str kv.2) (map_to_list d)) as Hitems
      by (eapply Forall_impl; [exact IH|]; by intros [key v]).
    unfold encoded, encode. cbn [has_nonfinite Json.iterencode compact_text].
    rewrite !map_to_list_fmap.
    destruct (existsb snd _) eqn:Hfinite.
    + cbn [Json.and_then snd]. by apply dict_items_nonfinite.
    + rewrite (dict_items_finite _ _ _ Hitems Hfinite), and_then_done.
      destruct (map_to_list d) as [|item items]; [done|].
      by rewrite <- (dict_text_concat _ _ true).
Qed.

(** The two runs of [save_json] on a file that can be opened. *)
Lemma save_json_run_finite (w : World) (file_path : path) (data : json) :
  open_w w file_path = Ok tt →
  has_nonfinite data = false →
  save_json w file_path data =
    mkIO [ Log INFO ("Saving .json file. [path=" +:+ path_str w file_path +:+ "]");
           FileOpen file_path;
           FileWrite file_path (compact_text (float_repr w) (encode_str w) data);
           Log INFO "Done saving json file." ]
         (Ok tt).
Proof.
  intros Hopen Hfinite.
  pose proof (encode_encoded (float_repr w) (encode_str w) data) as Hdata.
  unfold encoded, encode in Hdata. rewrite Hfinite in Hdata.
  unfold save_json, Json.dump, log, emit, lift, mbind, IO_bind. cbn [outcome trace app fst snd].
  rewrite Hopen. cbn [outcome trace app]. rewrite Hdata.
  by cbn [outcome trace app Json.done fst snd].
Qed.

Lemma save_json_run_nonfinite (w : World) (file_path : path) (data : json) :
  open_w w file_path = Ok tt →
  has_nonfinite data = true →
  save_json w file_path data =
    mkIO [ Log INFO ("Saving .json file. [path=" +:+ path_str w file_path +:+ "]");
           FileOpen file_path;
           FileWrite file_path
             (Json.dump (float_repr w) (encode_str w) data false (",", ":")).1 ]
         (Err ValueError).
Proof.
  intros Hopen Hfinite.
  pose proof (encode_encoded (float_repr w) (encode_str w) data) as Hdata.
  unfold encoded, encode in Hdata. rewrite Hfinite in Hdata.
  unfold save_json, Json.dump, log, emit, lift, mbind, IO_bind. cbn [outcome trace app fst snd].
  rewrite Hopen. cbn [outcome trace app]. rewrite Hdata.
  by cbn [outcome trace app].
Qed.

(** C9.  On a file that can be opened, [save_json] of a value that holds
    a NaN or an infinity anywhere ends with [ValueError]: the file is
    closed with what was written before that number, no token stands in
    for it, and the end of the saving is not logged.  On a value that
    holds finite numbers only it writes the compact text of the value,
    items separated by [,] and keys from values by [:] with nothing in
    between, and ends normally.  The text is a function of the value
    (and of how Python writes a finite float and a string literal). *)
Theorem save_json_nonfinite (w : World) (file_path : path) (data : json) :
  open_w w file_path = Ok tt →
  (has_nonfinite data = true →
     outcome (save_json w file_path data) = Err ValueError ∧
     ∃ partial,
       trace (save_json w file_path data) =
         [ Log INFO ("Saving .json file. [path=" +:+ path_str w file_path +:+ "]");
           FileOpen file_path;
           FileWrite file_path partial ]) ∧
  (has_nonfinite data = false →
     outcome (save_json w file_path data) = Ok tt ∧
     trace (save_json w file_path data) =
       [ Log INFO ("Saving .json file. [path=" +:+ path_str w file_path +:+ "]");
         FileOpen file_path;
         FileWrite file_path (compact_text (float_repr w) (encode_str w) data);
         Log INFO "Done saving json file." ]).
Proof.
  intros Hopen. split; intros Hfinite.
  - rewrite (save_json_run_nonfinite _ _ _ Hopen Hfinite). split; [done|]. by eexists.
  - by rewrite (save_json_run_finite _ _ _ Hopen Hfinite).
Qed.

(** A point whose second coordinate is no number, and a proper one. *)
Definition broken_point : json :=
  JObj {[ "type" := JStr "Point";
          "coordinates" := JArr [JFloat (S754_finite false 3 (-1)); JFloat S754_nan] ]}.

Definition proper_point : json :=
  JObj {[ "type" := JStr "Point";
          "coordinates" := JArr [JInt 22; JFloat (S754_finite false 3 (-1))] ]}.

Lemma save_json_nonfinite_witness :
  open_w (offline_world (Ok Directory)) (Path "/tmp/point.geojson") = Ok tt ∧
  has_nonfinite broken_point = true ∧
  outcome (save_json (offline_world (Ok Directory)) (Path "/tmp/point.geojson") broken_point)
    = Err ValueError ∧
  has_nonfinite proper_point = false ∧
  outcome (save_json (offline_world (Ok Directory)) (Path "/tmp/point.geojson") proper_point)
    = Ok tt.
Proof.
  destruct (save_json_nonfinite (offline_world (Ok Directory)) (Path "/tmp/point.geojson")
              broken_point eq_refl) as [Hbroken _].
  destruct (save_json_nonfinite (offline_world (Ok Directory)) (Path "/tmp/point.geojson")
              proper_point eq_refl) as [_ Hproper].
  split; [reflexivity|]. split; [reflexivity|].
  split; [exact (proj1 (Hbroken eq_refl))|]. split; [reflexivity|].
  exact (proj1 (Hproper eq_refl)).
Defined.

(** * Further properties of the pipeline *)

(** ** [coalesce] and [concatenate_tags] on any values *)

(** X1.  [coalesce] returns its first truthy argument, whatever follows
    it, and the empty string exactly when no argument is truthy. *)
Theorem coalesce_first_truthy (args : list json) :
  (Forall (λ v, Py.truthy v = false) args ∧ coalesce args = JStr "") ∨
  (∃ before x after,
     args = before ++ x :: after ∧
     Forall (λ v, Py.truthy v = false) before ∧
     Py.truthy x = true ∧
     coalesce args = x).
Proof.
  induction args as [|arg args IH]; cbn [coalesce].
  - left. by split.
  - destruct (Py.truthy arg) eqn:Harg.
    + right. exists [], arg, args. by repeat split.
    + destruct IH as [[Hall ->] | (before & x & after & -> & Hbefore & Hx & ->)].
      * left. split; [by constructor | done].
      * right. exists (arg :: before), x, after. repeat split; [|done..]. by constructor.
Qed.

Lemma join_strings separator (l : list string) :
  Py.join separator (JStr <$> l) = Ok (String.concat separator l).
Proof.
  induction l as [|s l IH]; [done|].
  destruct l as [|s' l]; [done|].
  change (Py.join separator (JStr <$> s :: s' :: l))
    with (r ← Py.join separator (JStr <$> s' :: l); Ok (s +:+ separator +:+ r)).
  by rewrite IH.
Qed.

Lemma join_not_str separator before v after :
  (∀ s, v ≠ JStr s) →
  Py.join separator (before ++ v :: after) = Err TypeError.
Proof.
  intros Hv. induction before as [|x before IH]; cbn [app].
  - destruct v; try done. by destruct (Hv s).
  - destruct x; try done. cbn [Py.join]. rewrite IH.
    destruct (before ++ v :: after) eqn:Hl; [by destruct before | done].
Qed.

(** The non-empty strings of a list of optional values. *)
Definition nonempty_values (values : list (option string)) : list string :=
  omap (λ o, if nonempty o then o else None) values.

Lemma filter_truthy_opt values :
  List.filter Py.truthy (opt_json <$> values) = JStr <$> nonempty_values values.
Proof.
  induction values as [|o values IH]; [done|].
  cbn [fmap list_fmap List.filter nonempty_values omap list_omap].
  rewrite truthy_opt. fold (opt_json <$> values). fold (nonempty_values values).
  destruct o as [s|]; cbn [nonempty]; [|exact IH].
  destruct (negb (String.eqb s "")); [|exact IH].
  cbn [opt_json from_option fmap list_fmap]. by rewrite IH.
Qed.

(** X2.  On any number of tag values that are strings or missing, and
    with any separator, [concatenate_tags] joins the non-empty ones in
    order; a truthy value that is not a string makes it raise
    [TypeError]. *)
Theorem concatenate_tags_any (separator : string) :
  (∀ values : list (option string),
     concatenate_tags (opt_json <$> values) separator =
     Ok (JStr (String.concat separator (nonempty_values values)))) ∧
  (∀ (tags : list json) v,
     v ∈ tags → Py.truthy v = true → (∀ s, v ≠ JStr s) →
     concatenate_tags tags separator = Err TypeError).
Proof.
  split.
  - intros values. unfold concatenate_tags.
    by rewrite filter_truthy_opt, join_strings.
  - intros tags v Hin Hv Hstr. unfold concatenate_tags.
    assert (v ∈ List.filter Py.truthy tags) as Hfiltered.
    { apply list_elem_of_In, filter_In. by rewrite <- list_elem_of_In. }
    apply list_elem_of_split in Hfiltered as (before & after & ->).
    by rewrite join_not_str.
Qed.

Lemma concatenate_tags_any_witness :
  JInt 5 ∈ [JStr "111"; JInt 5] ∧ Py.truthy (JInt 5) = true ∧
  concatenate_tags [JStr "111"; JInt 5] ";" = Err TypeError ∧
  concatenate_tags (opt_json <$> [Some "111"; None; Some ""; Some "222"]) " / " =
    Ok (JStr "111 / 222").
Proof.
  assert (JInt 5 ∈ [JStr "111"; JInt 5]) as Hin by (right; left).
  split; [exact Hin|]. split; [reflexivity|].
  destruct (concatenate_tags_any ";") as [_ Hraise].
  split; [by apply (Hraise _ (JInt 5))|].
  destruct (concatenate_tags_any " / ") as [Hjoin _].
  exact (Hjoin [Some "111"; None; Some ""; Some "222"]).
Defined.

(** ** Normalisation on any tags *)

(** X3.  Whatever the values of the tags are, when normalisation returns
    it returns a [dict] that has the four name fields and a [phone] field
    that is a string, and in which no other key starts with [name]. *)
Theorem normalisation_shape (properties r : json) :
  process_feature_properties properties = Ok r →
  ∃ d, r = JObj d ∧
    (∀ key, key ∈ name_fields → is_Some (d !! key)) ∧
    (∃ s, d !! "phone" = Some (JStr s)) ∧
    (∀ key, starts_with "name" key → is_Some (d !! key) → key ∈ name_fields).
Proof.
  unfold process_feature_properties.
  destruct (Py.subscript properties "tags") as [tags|]; [|done]. cbn [mbind result_bind].
  destruct (Py.items tags) as [p|]; [|done]. cbn [mbind result_bind].
  set (names := <["name:ru" := _]> (<["name:en" := _]> (<["name:uk" := _]>
                  (<["name:pl" := _]> (kept_tags p))))).
  assert (∀ key, key ∈ name_fields → is_Some (names !! key)) as Hnames.
  { intros key. rewrite elem_of_name_fields. subst names.
    intros [-> | [-> | [-> | ->]]]; by simplify_map_eq. }
  assert (∀ key, starts_with "name" key → is_Some (names !! key) → key ∈ name_fields)
    as Honly.
  { intros key Hname. rewrite elem_of_name_fields. subst names.
    rewrite !lookup_insert. repeat case_decide; subst; auto.
    rewrite kept_tags_lookup.
    assert (keep_key key = false) as -> by (apply keep_key_false; by left).
    by intros [? ?]. }
  assert (∀ results : gmap string json,
            (∀ key, key ≠ "address" → results !! key = names !! key) →
            ∀ r, (phone ← concatenate_tags [Py.get p "phone"; Py.get p "contact:phone"] ";";
                  Ok (JObj (<["phone" := phone]> results))) = Ok r →
            ∃ d, r = JObj d ∧
              (∀ key, key ∈ name_fields → is_Some (d !! key)) ∧
              (∃ s, d !! "phone" = Some (JStr s)) ∧
              (∀ key, starts_with "name" key → is_Some (d !! key) → key ∈ name_fields))
    as Hend.
  { intros results Hresults r'. unfold concatenate_tags.
    destruct (Py.join _ _) as [s|]; [|done]. cbn [mbind result_bind]. intros [= <-].
    eexists. split; [done|]. split; [|split].
    - intros key Hkey.
      assert (key ≠ "address" ∧ "phone" ≠ key) as [? ?]
        by (apply elem_of_name_fields in Hkey as [-> | [-> | [-> | ->]]]; by split).
      rewrite lookup_insert_ne, Hresults by done. by apply Hnames.
    - exists s. by rewrite lookup_insert_eq.
    - intros key Hname.
      assert (key ≠ "address" ∧ "phone" ≠ key) as [? ?]
        by (destruct Hname as [rest ->]; by split).
      rewrite lookup_insert_ne, Hresults by done. by apply Honly. }
  destruct (Py.truthy (Py.get p "addr:housenumber")).
  - destruct (Py.add (coalesce _) _) as [place|]; [|done]. cbn [mbind result_bind].
    destruct (if Py.truthy _ then _ else _) as [street|]; [|done]. cbn [mbind result_bind].
    destruct (Py.add place street) as [a|]; [|done]. cbn [mbind result_bind].
    destruct (Py.add a _) as [a'|]; [|done]. cbn [mbind result_bind].
    apply Hend. intros key Hkey. by rewrite lookup_insert_ne.
  - cbn [mbind result_bind]. by apply Hend.
Qed.

(** Tags with values that are not strings. *)
Definition numbered_tags : gmap string json :=
  {[ "amenity" := JStr "hospital"; "name" := JInt 7; "phone" := JNull ]}.

Definition numbered_properties : gmap string json :=
  {[ "tags" := JObj numbered_tags ]}.

Lemma normalisation_shape_witness :
  ∃ r, process_feature_properties (JObj numbered_properties) = Ok r ∧
  ∃ d, r = JObj d ∧ is_Some (d !! "name:pl") ∧ ∃ s, d !! "phone" = Some (JStr s).
Proof.
  assert (∃ r, process_feature_properties (JObj numbered_properties) = Ok r) as [r Hr].
  { eexists. vm_compute. reflexivity. }
  destruct (normalisation_shape _ _ Hr) as (d & Hd & Hnames & Hphone & _).
  exists r. split; [exact Hr|]. exists d. split; [exact Hd|].
  split; [|exact Hphone]. apply Hnames. by left.
Defined.

(** The keys the tests of [routers] read. *)
Definition router_keys : list string :=
  [ "social_facility:for"; "information:for"; "healthcare"; "social_facility";
    "amenity"; "office"; "country"; "building" ].

Lemma normalized_router_key t key :
  key ∈ router_keys → normalized t !! key = (JStr <$> t) !! key.
Proof.
  intros Hkey.
  assert ((key ∉ synthesized_fields) ∧ keep_key key = true) as [Hsyn Hkeep].
  { unfold router_keys in Hkey. rewrite !elem_of_cons, elem_of_nil in Hkey.
    destruct Hkey as [-> | [-> | [-> | [-> | [-> | [-> | [-> | [-> | []]]]]]]]];
      (split; [by_evaluation | reflexivity]). }
  by rewrite (normalized_other _ _ Hsyn), Hkeep, lookup_fmap.
Qed.

Lemma get_default_normalized t key dflt :
  key ∈ router_keys →
  Py.get_default (normalized t) key dflt = Py.get_default (JStr <$> t) key dflt.
Proof. intros Hkey. unfold Py.get_default. by rewrite normalized_router_key. Qed.

Lemma routers_normalized t :
  Forall (λ r, r.2 (JObj (normalized t)) = r.2 (str_dict t)) routers.
Proof.
  unfold routers. repeat (apply Forall_cons; split); [..|by apply Forall_nil_2];
    cbn [snd]; unfold str_dict, Py.dict_get; cbn [Py.items mbind result_bind];
    by rewrite !get_default_normalized by by_evaluation.
Qed.

Lemma odict_get_Forall {A} (P : A → Prop) (d : Odict.t A) key v :
  Forall (λ r, P r.2) d → Odict.get d key = Some v → P v.
Proof.
  induction 1 as [|[k x] d Hx _ IH]; cbn [Odict.get]; [done|].
  destruct (String.eqb k key); [by intros [= <-] | exact IH].
Qed.

(** X4.  Normalisation does not change what the layer tests see: on
    string-valued tags, every layer test gives the same answer on the
    normalised properties as on the tags themselves, so a feature is
    routed by its raw tags. *)
Theorem normalisation_keeps_layers (properties : gmap string json) (t : gmap string string) :
  properties !! "tags" = Some (str_dict t) →
  ∃ r, process_feature_properties (JObj properties) = Ok (JObj r) ∧
    ∀ layer_name, layer_test layer_name (JObj r) = layer_test layer_name (str_dict t).
Proof.
  intros Htags. exists (normalized t).
  split; [by apply process_feature_properties_str|].
  intros layer_name. unfold layer_test.
  destruct (Odict.get routers layer_name) as [test|] eqn:Htest; [|done].
  exact (odict_get_Forall (λ test, test (JObj (normalized t)) = test (str_dict t))
           routers layer_name test (routers_normalized t) Htest).
Qed.

Lemma normalisation_keeps_layers_witness :
  pharmacy_properties !! "tags" = Some (str_dict pharmacy_tags) ∧
  ∃ r, process_feature_properties (JObj pharmacy_properties) = Ok (JObj r) ∧
       layer_test "pharmacies" (JObj r) = Ok true ∧
       layer_test "blood_donation_points" (JObj r) = Ok true ∧
       layer_test "hospitals" (JObj r) = Ok false.
Proof.
  split; [reflexivity|].
  destruct (normalisation_keeps_layers pharmacy_properties pharmacy_tags eq_refl)
    as (r & Hr & Hlayers).
  exists r. split; [exact Hr|]. rewrite !Hlayers. repeat split; reflexivity.
Defined.

(** ** Normalising twice *)

(** The strings of a [dict]. *)
Definition strings_of (d : gmap string json) : gmap string string :=
  omap (λ v, match v with JStr s => Some s | _ => None end) d.

Lemma normalized_strings t key v :
  normalized t !! key = Some v → ∃ s, v = JStr s.
Proof.
  destruct (decide (key ∈ synthesized_fields)) as [Hsyn | Hsyn].
  - apply elem_of_synthesized_fields in Hsyn as [Hname | [-> | ->]].
    + apply elem_of_name_fields in Hname as [-> | [-> | [-> | ->]]].
      * rewrite normalized_name_pl. intros [= <-]. by eexists.
      * rewrite normalized_name_uk. intros [= <-]. by eexists.
      * rewrite normalized_name_en. intros [= <-]. by eexists.
      * rewrite normalized_name_ru. intros [= <-]. by eexists.
    + rewrite normalized_address. case_match.
      * intros [= <-]. by eexists.
      * destruct (t !! "address"); [|done]. intros [= <-]. by eexists.
    + rewrite normalized_phone. intros [= <-]. by eexists.
  - rewrite (normalized_other _ _ Hsyn). case_match; [|done].
    destruct (t !! key); [|done]. intros [= <-]. by eexists.
Qed.

Lemma strings_of_normalized t : JStr <$> strings_of (normalized t) = normalized t.
Proof.
  apply map_eq. intros key. unfold strings_of. rewrite lookup_fmap, lookup_omap.
  destruct (normalized t !! key) as [v|] eqn:Hv; [|done].
  by destruct (normalized_strings _ _ _ Hv) as [s ->].
Qed.

Lemma strings_of_lookup t key s :
  normalized t !! key = Some (JStr s) → strings_of (normalized t) !! key = Some s.
Proof. intros H. unfold strings_of. by rewrite lookup_omap, H. Qed.

Lemma strings_of_lookup_None t key :
  normalized t !! key = None → strings_of (normalized t) !! key = None.
Proof. intros H. unfold strings_of. by rewrite lookup_omap, H. Qed.

Lemma first_nonempty_head s rest :
  Forall (λ o, o = None) rest → first_nonempty (Some s :: rest) = s.
Proof.
  intros Hrest. cbn [first_nonempty nonempty].
  destruct (String.eqb_spec s "") as [-> | ?]; [|done]. cbn [negb].
  induction Hrest as [|o rest -> _ IH]; done.
Qed.

Lemma normalized_ignored t key :
  key ∉ synthesized_fields → keep_key key = false → normalized t !! key = None.
Proof. intros Hsyn Hkeep. by rewrite (normalized_other _ _ Hsyn), Hkeep. Qed.

Lemma normalized_twice t : normalized (strings_of (normalized t)) = normalized t.
Proof.
  set (t' := strings_of (normalized t)).
  assert (t' !! "name" = None ∧ t' !! "name:ua" = None ∧
          t' !! "contact:phone" = None ∧ t' !! "addr:housenumber" = None)
    as (Hname & Hua & Hcontact & Hnumber).
  { repeat split; apply strings_of_lookup_None, normalized_ignored;
      solve [by_evaluation | reflexivity]. }
  subst t'. apply map_eq. intros key.
  destruct (decide (key ∈ synthesized_fields)) as [Hsyn | Hsyn].
  - apply elem_of_synthesized_fields in Hsyn as [Hn | [-> | ->]].
    + apply elem_of_name_fields in Hn as [-> | [-> | [-> | ->]]].
      * rewrite normalized_name_pl, Hname,
          (strings_of_lookup t _ _ (normalized_name_pl t)), normalized_name_pl.
        do 2 f_equal. apply first_nonempty_head. by repeat constructor.
      * rewrite normalized_name_uk, Hname, Hua,
          (strings_of_lookup t _ _ (normalized_name_uk t)), normalized_name_uk.
        do 2 f_equal. apply first_nonempty_head. by repeat constructor.
      * rewrite normalized_name_en, Hname,
          (strings_of_lookup t _ _ (normalized_name_en t)), normalized_name_en.
        do 2 f_equal. apply first_nonempty_head. by repeat constructor.
      * rewrite normalized_name_ru, Hname,
          (strings_of_lookup t _ _ (normalized_name_ru t)), normalized_name_ru.
        do 2 f_equal. apply first_nonempty_head. by repeat constructor.
    + rewrite (normalized_address (strings_of _)), Hnumber. cbn [nonempty].
      by rewrite <- lookup_fmap, strings_of_normalized.
    + rewrite (normalized_phone (strings_of _)), Hcontact,
        (strings_of_lookup t _ _ (normalized_phone t)), normalized_phone.
      unfold phone_of at 1. cbn [nonempty negb default from_option id].
      by destruct (String.eqb_spec (phone_of (t !! "phone") (t !! "contact:phone")) "")
        as [-> | ?].
  - rewrite (normalized_other (strings_of _) _ Hsyn), <- lookup_fmap, strings_of_normalized.
    rewrite (normalized_other t _ Hsyn). by destruct (keep_key key).
Qed.

(** X5.  Normalisation is idempotent: handing the normalised properties
    of string-valued tags back as tags returns them unchanged. *)
Theorem normalisation_idempotent (properties again : gmap string json)
    (t : gmap string string) (r : json) :
  properties !! "tags" = Some (str_dict t) →
  process_feature_properties (JObj properties) = Ok r →
  again !! "tags" = Some r →
  process_feature_properties (JObj again) = Ok r.
Proof.
  intros Htags Hr Hagain.
  rewrite (process_feature_properties_str _ _ Htags) in Hr. injection Hr as <-.
  rewrite <- strings_of_normalized in Hagain.
  rewrite (process_feature_properties_str again _ Hagain).
  by rewrite normalized_twice.
Qed.

(** The normalised properties of the pharmacy, handed back as tags. *)
Definition pharmacy_again : gmap string json :=
  {[ "tags" := JObj (normalized pharmacy_tags) ]}.

Lemma normalisation_idempotent_witness :
  pharmacy_properties !! "tags" = Some (str_dict pharmacy_tags) ∧
  process_feature_properties (JObj pharmacy_properties) =
    Ok (JObj (normalized pharmacy_tags)) ∧
  pharmacy_again !! "tags" = Some (JObj (normalized pharmacy_tags)) ∧
  process_feature_properties (JObj pharmacy_again) = Ok (JObj (normalized pharmacy_tags)).
Proof.
  assert (process_feature_properties (JObj pharmacy_properties) =
            Ok (JObj (normalized pharmacy_tags))) as Hfirst
    by (by apply process_feature_properties_str).
  split; [reflexivity|]. split; [exact Hfirst|]. split; [reflexivity|].
  exact (normalisation_idempotent pharmacy_properties pharmacy_again pharmacy_tags _
           eq_refl Hfirst eq_refl).
Defined.

(** ** Layers that exclude each other *)

Lemma eq_str_unique v a b : a ≠ b → Py.eq_str v a = true → Py.eq_str v b = false.
Proof.
  intros Hab. destruct v; try done. cbn [Py.eq_str].
  intros ->%String.eqb_eq. by apply String.eqb_neq.
Qed.

(** The value the three [amenity] tests compare, when the feature has a
    properties [dict]. *)
Definition amenity_of (feature : json) : option json :=
  match feature with
  | JObj d =>
      match d !! "properties" with
      | Some (JObj p) => Some (Py.get_default p "amenity" (JStr ""))
      | _ => None
      end
  | _ => None
  end.

Lemma in_layer_amenity layer_name value feature :
  (layer_name, value) ∈
    [("pharmacies", "pharmacy"); ("hospitals", "hospital"); ("bus_stations", "bus_station")] →
  in_layer layer_name feature =
  from_option (λ v, Py.eq_str v value) false (amenity_of feature).
Proof.
  rewrite !elem_of_cons, elem_of_nil. unfold in_layer, amenity_of.
  intros [[= -> ->] | [[= -> ->] | [[= -> ->] | []]]];
    (destruct feature as [| | | | | |d]; try done; cbn [Py.subscript];
     destruct (d !! "properties") as [[| | | | | |p]|]; try done;
     cbn [mbind result_bind from_option]; unfold layer_test, routers;
     cbn [Odict.get String.eqb Ascii.eqb Bool.eqb]; unfold Py.dict_get;
     cbn [Py.items mbind result_bind]; by destruct (Py.eq_str _ _)).
Qed.

(** X6.  The layers [pharmacies], [hospitals] and [bus_stations] test the
    same key against different values, so no feature, whatever it is, is
    in two of them. *)
Theorem amenity_layers_exclusive (feature : json) :
  (in_layer "pharmacies" feature = true →
     in_layer "hospitals" feature = false ∧ in_layer "bus_stations" feature = false) ∧
  (in_layer "hospitals" feature = true →
     in_layer "pharmacies" feature = false ∧ in_layer "bus_stations" feature = false) ∧
  (in_layer "bus_stations" feature = true →
     in_layer "pharmacies" feature = false ∧ in_layer "hospitals" feature = false).
Proof.
  rewrite (in_layer_amenity "pharmacies" "pharmacy") by by_evaluation.
  rewrite (in_layer_amenity "hospitals" "hospital") by by_evaluation.
  rewrite (in_layer_amenity "bus_stations" "bus_station") by by_evaluation.
  destruct (amenity_of feature) as [v|]; cbn [from_option]; [|done].
  repeat split; (eapply eq_str_unique; [|eassumption]); done.
Qed.

Lemma amenity_layers_exclusive_witness :
  in_layer "pharmacies" pharmacy_out = true ∧
  in_layer "hospitals" pharmacy_out = false ∧
  in_layer "bus_stations" pharmacy_out = false.
Proof.
  split; [reflexivity|].
  exact (proj1 (amenity_layers_exclusive pharmacy_out) eq_refl).
Defined.

(** ** [process_geojson] and [split_geojson] on any input *)

Lemma comprehension_first_error f before x after e :
  Forall (λ x, ∃ y, f x = Ok y) before →
  f x = Err e →
  comprehension f (before ++ x :: after) = Err e.
Proof.
  intros Hbefore Hx. induction Hbefore as [|x' before [y Hy] _ IH]; cbn [app comprehension].
  - by rewrite Hx.
  - by rewrite Hy, IH.
Qed.

(** X7.  [process_geojson] stops at the first feature that cannot be
    processed and raises that feature's exception, whatever comes after
    it; in particular a feature with proper tags and no [geometry] key
    makes it raise [KeyError] for [geometry]. *)
Theorem process_geojson_first_error (data : gmap string json)
    (before after : list json) (feature : json) :
  data !! "features" = Some (JArr (before ++ feature :: after)) →
  Forall (λ x, ∃ y, process_feature x = Ok y) before →
  (∀ e, process_feature feature = Err e → process_geojson (JObj data) = Err e) ∧
  (∀ (d properties : gmap string json) (t : gmap string string),
     feature = JObj d →
     d !! "properties" = Some (JObj properties) →
     properties !! "tags" = Some (str_dict t) →
     d !! "geometry" = None →
     process_geojson (JObj data) = Err (KeyError "geometry")).
Proof.
  intros Hfeatures Hbefore.
  assert (∀ e, process_feature feature = Err e → process_geojson (JObj data) = Err e)
    as Hfirst.
  { intros e He. unfold process_geojson. cbn [Py.subscript]. rewrite Hfeatures.
    cbn [mbind result_bind Py.iter].
    by rewrite (comprehension_first_error _ _ _ _ e Hbefore He). }
  split; [exact Hfirst|].
  intros d properties t -> Hproperties Htags Hgeometry. apply Hfirst.
  unfold process_feature. cbn [Py.subscript]. rewrite Hproperties, Hgeometry.
  cbn [mbind result_bind]. by rewrite (process_feature_properties_str _ _ Htags).
Qed.

(** A feature with tags and no geometry. *)
Definition shapeless : gmap string json :=
  {[ "type" := JStr "Feature"; "properties" := JObj pharmacy_properties ]}.

Definition shapeless_feature : json := JObj shapeless.

Definition shapeless_data : gmap string json :=
  {[ "features" := JArr ([pharmacy_feature] ++ shapeless_feature :: [station_feature]) ]}.

Lemma process_geojson_first_error_witness :
  shapeless_data !! "features" =
    Some (JArr ([pharmacy_feature] ++ shapeless_feature :: [station_feature])) ∧
  Forall (λ x, ∃ y, process_feature x = Ok y) [pharmacy_feature] ∧
  process_geojson (JObj shapeless_data) = Err (KeyError "geometry").
Proof.
  assert (Forall (λ x, ∃ y, process_feature x = Ok y) [pharmacy_feature]) as Hbefore.
  { repeat constructor. destruct (process_feature_raw _ pharmacy_feature_raw) as (y & Hy & _).
    by exists y. }
  split; [reflexivity|]. split; [exact Hbefore|].
  destruct (process_geojson_first_error shapeless_data [pharmacy_feature] [station_feature]
              shapeless_feature eq_refl Hbefore) as [_ Hgeometry].
  by apply (Hgeometry shapeless pharmacy_properties pharmacy_tags).
Defined.

Lemma process_feature_properties_dict properties r :
  process_feature_properties properties = Ok r → ∃ d, r = JObj d.
Proof.
  unfold process_feature_properties.
  destruct (Py.subscript properties "tags") as [tags|]; [|done]. cbn [mbind result_bind].
  destruct (Py.items tags) as [p|]; [|done]. cbn [mbind result_bind].
  destruct (if Py.truthy (Py.get p "addr:housenumber") then _ else _) as [results|];
    [|done].
  cbn [mbind result_bind]. destruct (concatenate_tags _ _) as [phone|]; [|done].
  cbn [mbind result_bind]. intros [= <-]. by eexists.
Qed.

Lemma process_feature_has_properties feature out :
  process_feature feature = Ok out → has_properties out.
Proof.
  unfold process_feature.
  destruct (Py.subscript feature "properties") as [properties|]; [|done].
  cbn [mbind result_bind].
  destruct (process_feature_properties properties) as [r|] eqn:Hr; [|done].
  cbn [mbind result_bind].
  destruct (Py.subscript feature "geometry") as [geometry|]; [|done].
  cbn [mbind result_bind]. intros [= <-].
  destruct (process_feature_properties_dict _ _ Hr) as [d ->].
  eexists _, d. split; [done|]. by simplify_map_eq.
Qed.

Lemma comprehension_Ok f l ys :
  comprehension f l = Ok ys → Forall2 (λ x y, f x = Ok y) l ys.
Proof.
  revert ys. induction l as [|x l IH]; intros ys; cbn [comprehension].
  - intros [= <-]. constructor.
  - destruct (f x) as [y|] eqn:Hy; [|done]. cbn [mbind result_bind].
    destruct (comprehension f l) as [ys'|]; [|done]. cbn [mbind result_bind].
    intros [= <-]. constructor; [done | by apply IH].
Qed.

(** X8.  Whatever the input is, when [process_geojson] returns, its
    result is a [FeatureCollection] that [split_geojson] accepts: the
    split raises nothing, and every feature of every layer is one of the
    processed features. *)
Theorem split_after_process (data processed : json) :
  process_geojson data = Ok processed →
  ∃ outs layers,
    processed = feature_collection outs ∧
    split_geojson processed = Ok layers ∧
    ∀ layer_name l feature,
      Odict.get layers layer_name = Some (feature_collection l) →
      feature ∈ l → feature ∈ outs.
Proof.
  unfold process_geojson.
  destruct (Py.subscript data "features") as [features|]; [|done]. cbn [mbind result_bind].
  destruct (Py.iter features) as [l|]; [|done]. cbn [mbind result_bind].
  destruct (comprehension process_feature l) as [outs|] eqn:Houts; [|done].
  cbn [mbind result_bind]. intros [= <-].
  assert (Forall has_properties outs) as Hall.
  { apply comprehension_Ok in Houts. clear -Houts.
    induction Houts as [|x y l ys Hy _ IH]; constructor; [|done].
    by eapply process_feature_has_properties. }
  destruct (split_loop outs [] [] Hall) as (layers & Hloop & Hget); [done|].
  exists outs, layers. split; [done|]. split.
  - unfold split_geojson, feature_collection. cbn [Py.subscript].
    rewrite lookup_insert_ne by done. rewrite lookup_singleton_eq.
    cbn [mbind result_bind Py.iter]. exact Hloop.
  - intros layer_name l' feature. rewrite Hget. cbn [app]. unfold collected.
    destruct (List.filter _ outs) as [|x l''] eqn:Hl; [done|].
    intros Hfc Hin.
    assert (l' = x :: l'') as ->.
    { apply (f_equal features_of) in Hfc. by rewrite !features_of_collection in Hfc. }
    rewrite <- Hl in Hin. apply list_elem_of_In, filter_In in Hin as [Hin _].
    by apply list_elem_of_In.
Qed.

Lemma split_after_process_witness :
  ∃ processed, process_geojson (JObj sample_data) = Ok processed ∧
  ∃ layers, split_geojson processed = Ok layers.
Proof.
  assert (∃ processed, process_geojson (JObj sample_data) = Ok processed)
    as [processed Hprocessed].
  { eexists. vm_compute. reflexivity. }
  exists processed. split; [exact Hprocessed|].
  destruct (split_after_process _ _ Hprocessed) as (outs & layers & _ & Hsplit & _).
  by exists layers.
Defined.

Lemma for_each_invariant_in {A S} (I : S → Prop) (body : S → A → result S) l :
  (∀ s x s', x ∈ l → I s → body s x = Ok s' → I s') →
  ∀ s s', I s → for_each body l s = Ok s' → I s'.
Proof.
  induction l as [|x l IH]; intros Hbody s s' Hs; cbn [for_each].
  - by intros [= <-].
  - destruct (body s x) as [s1|] eqn:Hs1; [|done]. cbn [mbind result_bind].
    apply IH.
    + intros s2 y s3 Hy. apply Hbody. by right.
    + eapply Hbody; [by left | exact Hs | exact Hs1].
Qed.

(** What [split_geojson] keeps true of its [results]: one entry per key,
    every key a layer of the table, every layer a collection with a
    feature in it. *)
Definition layers_ok (results : Odict.t json) : Prop :=
  NoDup (Odict.keys results) ∧
  (∀ layer_name, layer_name ∈ Odict.keys results → layer_name ∈ routers.*1) ∧
  (∀ layer_name layer, Odict.get results layer_name = Some layer →
     ∃ feature l, layer = feature_collection (feature :: l)).

Lemma layers_ok_set results layer_name feature l :
  layers_ok results →
  layer_name ∈ routers.*1 →
  layers_ok (Odict.set results layer_name (feature_collection (feature :: l))).
Proof.
  intros (Hnodup & Hkeys & Hlayers) Hname. split; [|split].
  - by apply odict_set_NoDup.
  - intros name. rewrite odict_get_keys, odict_get_set.
    case_decide; [by subst|]. rewrite <- odict_get_keys. apply Hkeys.
  - intros name layer. rewrite odict_get_set.
    case_decide; [intros [= <-]; by eexists _, _ | apply Hlayers].
Qed.

Lemma route_feature_layers_ok feature results router results' :
  router ∈ routers →
  layers_ok results →
  route_feature feature results router = Ok results' →
  layers_ok results'.
Proof.
  intros Hrouter Hok. unfold route_feature. destruct router as [layer_name test].
  assert (layer_name ∈ routers.*1) as Hname
    by (apply list_elem_of_fmap; by exists (layer_name, test)).
  destruct (Py.subscript feature "properties") as [p|]; [|done]. cbn [mbind result_bind].
  destruct (test p) as [[]|]; cbn [mbind result_bind]; [| by intros [= <-] | done].
  destruct (Odict.get results layer_name) as [layer|] eqn:Hlayer;
    cbn [default from_option id].
  - destruct Hok as (Hnodup & Hkeys & Hlayers).
    destruct (Hlayers _ _ Hlayer) as (f & l & ->).
    rewrite truthy_feature_collection, append_feature_collection.
    cbn [mbind result_bind]. intros [= <-].
    by apply (layers_ok_set results layer_name f (l ++ [feature])).
  - cbn [Py.truthy]. intros [= <-]. by apply layers_ok_set.
Qed.

(** X9.  Whatever the input is, when [split_geojson] returns, its result
    has one entry per key, every key is one of the nine layer names (so
    there are at most nine layers), and no layer is an empty
    collection. *)
Theorem split_geojson_bounds (geojson : json) (layers : Odict.t json) :
  split_geojson geojson = Ok layers →
  NoDup (Odict.keys layers) ∧
  (∀ layer_name, layer_name ∈ Odict.keys layers → layer_name ∈ routers.*1) ∧
  (length layers ≤ 9)%nat ∧
  (∀ layer_name layer, Odict.get layers layer_name = Some layer →
     ∃ feature l, layer = feature_collection (feature :: l)).
Proof.
  unfold split_geojson.
  destruct (Py.subscript geojson "features") as [features|]; [|done].
  cbn [mbind result_bind].
  destruct (Py.iter features) as [l|]; [|done]. cbn [mbind result_bind].
  intros Hloop.
  assert (layers_ok layers) as (Hnodup & Hkeys & Hlayers).
  { eapply (for_each_invariant layers_ok); [| |exact Hloop].
    - intros s feature s' Hs. apply (for_each_invariant_in layers_ok); [|exact Hs].
      intros s1 router s2 Hrouter. by apply route_feature_layers_ok.
    - split; [apply NoDup_nil_2|]. split; [by intros ? ?%elem_of_nil | done]. }
  split; [exact Hnodup|]. split; [exact Hkeys|]. split; [|exact Hlayers].
  change 9 with (length routers.*1).
  replace (length layers) with (length (Odict.keys layers))
    by (unfold Odict.keys; apply length_fmap).
  apply submseteq_length, NoDup_submseteq; [exact Hnodup | exact Hkeys].
Qed.

Lemma split_geojson_bounds_witness :
  ∃ layers, split_geojson (JObj sample_processed) = Ok layers ∧ (length layers ≤ 9)%nat.
Proof.
  assert (∃ layers, split_geojson (JObj sample_processed) = Ok layers) as [layers Hlayers].
  { eexists. vm_compute. reflexivity. }
  exists layers. split; [exact Hlayers|].
  exact (proj1 (proj2 (proj2 (split_geojson_bounds _ _ Hlayers)))).
Defined.

Lemma for_each_app {A S} (body : S → A → result S) l1 l2 s :
  for_each body (l1 ++ l2) s = (s' ← for_each body l1 s; for_each body l2 s').
Proof.
  revert s. induction l1 as [|x l1 IH]; intros s; cbn [app for_each]; [done|].
  destruct (body s x); cbn [mbind result_bind]; [apply IH | done].
Qed.

(** X10.  A feature that is a [dict] without a [properties] key makes
    [split_geojson] raise [KeyError] for [properties], when the features
    before it have one. *)
Theorem split_geojson_missing_properties (geojson d : gmap string json)
    (before after : list json) :
  geojson !! "features" = Some (JArr (before ++ JObj d :: after)) →
  Forall has_properties before →
  d !! "properties" = None →
  split_geojson (JObj geojson) = Err (KeyError "properties").
Proof.
  intros Hfeatures Hbefore Hd.
  destruct (split_loop before [] [] Hbefore) as (results & Hloop & _); [done|].
  unfold split_geojson. cbn [Py.subscript]. rewrite Hfeatures.
  cbn [mbind result_bind Py.iter]. rewrite for_each_app, Hloop.
  cbn [mbind result_bind for_each].
  assert (∀ router, route_feature (JObj d) results router = Err (KeyError "properties"))
    as Hroute.
  { intros [layer_name test]. unfold route_feature. cbn [Py.subscript]. by rewrite Hd. }
  unfold routers. cbn [for_each]. by rewrite Hroute.
Qed.

(** A feature without properties. *)
Definition bare : gmap string json :=
  {[ "type" := JStr "Feature"; "geometry" := JNull ]}.

Definition bare_data : gmap string json :=
  {[ "features" := JArr ([pharmacy_out] ++ JObj bare :: [kiosk_out]) ]}.

Lemma split_geojson_missing_properties_witness :
  bare_data !! "features" = Some (JArr ([pharmacy_out] ++ JObj bare :: [kiosk_out])) ∧
  Forall has_properties [pharmacy_out] ∧
  bare !! "properties" = None ∧
  split_geojson (JObj bare_data) = Err (KeyError "properties").
Proof.
  assert (Forall has_properties [pharmacy_out]) as Hbefore
    by (repeat constructor; apply pharmacy_out_has_properties).
  split; [reflexivity|]. split; [exact Hbefore|]. split; [reflexivity|].
  exact (split_geojson_missing_properties bare_data bare [pharmacy_out] [kiosk_out]
           eq_refl Hbefore eq_refl).
Defined.

(** ** The run of [main] *)

Lemma bind_Ok {A B} (m : IO A) (f : A → IO B) a :
  outcome m = Ok a → m ≫= f = mkIO (trace m ++ trace (f a)) (outcome (f a)).
Proof. intros Hm. unfold mbind, IO_bind. by rewrite Hm. Qed.

Lemma bind_Err {A B} (m : IO A) (f : A → IO B) e :
  outcome m = Err e → m ≫= f = mkIO (trace m) (Err e).
Proof. intros Hm. unfold mbind, IO_bind. by rewrite Hm. Qed.

Lemma outcome_bind_Ok {A B} (m : IO A) (f : A → IO B) b :
  outcome (m ≫= f) = Ok b → ∃ a, outcome m = Ok a ∧ outcome (f a) = Ok b.
Proof.
  destruct (outcome m) as [a|e] eqn:Hm.
  - rewrite (bind_Ok _ _ _ Hm). by exists a.
  - by rewrite (bind_Err _ _ _ Hm).
Qed.

Lemma Forall_trace_bind {A B} (P : event → Prop) (m : IO A) (f : A → IO B) :
  Forall P (trace m) →
  (∀ a, outcome m = Ok a → Forall P (trace (f a))) →
  Forall P (trace (m ≫= f)).
Proof.
  intros Hm Hf. destruct (outcome m) as [a|e] eqn:Houtcome.
  - rewrite (bind_Ok _ _ _ Houtcome). cbn [trace]. apply Forall_app. by split; [|apply Hf].
  - by rewrite (bind_Err _ _ _ Houtcome).
Qed.

Lemma Forall_trace_io_for {A} (P : event → Prop) (body : A → IO unit) l :
  (∀ x, x ∈ l → Forall P (trace (body x))) →
  Forall P (trace (io_for body l)).
Proof.
  induction l as [|x l IH]; intros Hbody; cbn [io_for]; [by constructor|].
  apply Forall_trace_bind; [apply Hbody; by left|].
  intros _ _. apply IH. intros y Hy. apply Hbody. by right.
Qed.

Lemma split_geojson_layers_ok geojson layers :
  split_geojson geojson = Ok layers → layers_ok layers.
Proof.
  unfold split_geojson.
  destruct (Py.subscript geojson "features") as [features|]; [|done].
  cbn [mbind result_bind].
  destruct (Py.iter features) as [l|]; [|done]. cbn [mbind result_bind].
  intros Hloop. eapply (for_each_invariant layers_ok); [| |exact Hloop].
  - intros s feature s' Hs. apply (for_each_invariant_in layers_ok); [|exact Hs].
    intros s1 router s2 Hrouter. by apply route_feature_layers_ok.
  - split; [apply NoDup_nil_2|]. split; [by intros ? ?%elem_of_nil | done].
Qed.

(** The files [main] may touch in a directory: [osm_data.geojson] and one
    file per layer name. *)
Definition output_file (dir : path) (file : path) : Prop :=
  ∃ name, (name = "osm_data" ∨ name ∈ routers.*1) ∧
          file = JoinPath dir (name +:+ ".geojson").

(** An event that is no file operation, or one on an output file. *)
Definition stays_inside (dir : path) (e : event) : Prop :=
  match e with
  | FileOpen file | FileWrite file _ => output_file dir file
  | _ => True
  end.

Lemma save_json_stays_inside w dir file data :
  output_file dir file → Forall (stays_inside dir) (trace (save_json w file data)).
Proof.
  intros Hfile. unfold save_json, log, emit.
  repeat (apply Forall_trace_bind; [|intros ? _]);
    try (by repeat constructor); cbn [trace lift]; by repeat constructor.
Qed.

Lemma split_geojson_log_outcome geojson layers :
  outcome (split_geojson_log geojson) = Ok layers → split_geojson geojson = Ok layers.
Proof.
  unfold split_geojson_log.
  intros (n & _ & H)%outcome_bind_Ok.
  apply outcome_bind_Ok in H as (? & _ & H).
  apply outcome_bind_Ok in H as (results & Hresults & H).
  apply outcome_bind_Ok in H as (? & _ & H).
  apply outcome_bind_Ok in H as (? & _ & H).
  cbn in H. cbn in Hresults. congruence.
Qed.

Lemma split_geojson_log_stays_inside dir geojson :
  Forall (stays_inside dir) (trace (split_geojson_log geojson)).
Proof.
  unfold split_geojson_log, log, emit.
  repeat (apply Forall_trace_bind; [|intros ? _]);
    try (by repeat constructor); cbn [trace lift mret IO_ret]; try by repeat constructor.
  apply Forall_trace_io_for. intros [layer gj] _.
  apply Forall_trace_bind; [by constructor|]. intros ? _. by repeat constructor.
Qed.

(** X11.  Whatever the world answers, the only files [main] opens or
    writes are [osm_data.geojson] and [<layer>.geojson] for the nine
    layer names, all directly in the output directory. *)
Theorem main_stays_inside (w : World) (output_dir : path) :
  Forall (stays_inside output_dir) (trace (main w output_dir)).
Proof.
  unfold main.
  apply Forall_trace_bind.
  { unfold query_overpass_api, log, emit.
    repeat (apply Forall_trace_bind; [|intros ? _]);
      try (by repeat constructor); cbn [trace lift]; by repeat constructor. }
  intros data _. apply Forall_trace_bind; [by constructor|].
  intros geojson_data _. apply Forall_trace_bind; [by constructor|].
  intros processed_data _. apply Forall_trace_bind.
  { apply save_json_stays_inside. exists "osm_data". split; [by left | done]. }
  intros _ _. apply Forall_trace_bind; [apply split_geojson_log_stays_inside|].
  intros layers Hlayers%split_geojson_log_outcome%split_geojson_layers_ok.
  destruct Hlayers as (_ & Hkeys & _).
  apply Forall_trace_io_for. intros [name gj] Hin.
  apply save_json_stays_inside. exists name. split; [right|done].
  apply Hkeys. unfold Odict.keys. apply list_elem_of_fmap. by exists (name, gj).
Qed.

Definition file_operation (e : event) : bool :=
  match e with
  | FileOpen _ | FileWrite _ _ => true
  | _ => false
  end.

Definition request (e : event) : bool :=
  match e with
  | HttpPost _ _ => true
  | _ => false
  end.

(** What [main] does once the data is downloaded. *)
Definition after_download (w : World) (output_dir : path) (data : json) : IO unit :=
  geojson_data ← lift (json2geojson w data);
  processed_data ← lift (process_geojson geojson_data);
  save_json w (JoinPath output_dir "osm_data.geojson") processed_data;;
  layers ← split_geojson_log processed_data;
  io_for (λ '(name, gj), save_json w (JoinPath output_dir (name +:+ ".geojson")) gj)
         layers.

Lemma main_after_download w output_dir :
  main w output_dir =
  query_overpass_api w overpass_query overpass_api_url ≫= after_download w output_dir.
Proof. reflexivity. Qed.

Lemma elem_of_trace_bind {A B} (m : IO A) (f : A → IO B) e :
  e ∈ trace (m ≫= f) → e ∈ trace m ∨ ∃ a, outcome m = Ok a ∧ e ∈ trace (f a).
Proof.
  destruct (outcome m) as [a|err] eqn:Hm.
  - rewrite (bind_Ok _ _ _ Hm). cbn [trace]. rewrite elem_of_app.
    intros [? | ?]; [by left | right; by exists a].
  - rewrite (bind_Err _ _ _ Hm). by left.
Qed.

Lemma query_overpass_api_trace w query api_url :
  ∃ rest,
    trace (query_overpass_api w query api_url) =
      Log INFO ("Requesting data from Overpass API. [url=" +:+ api_url +:+ "]")
      :: HttpPost api_url [("data", query)] :: rest ∧
    Forall (λ e, request e = false ∧ file_operation e = false) rest.
Proof.
  unfold query_overpass_api, log, emit, lift, mbind, IO_bind. cbn [outcome trace app].
  destruct (http_post w api_url _) as [response|]; cbn [outcome trace app];
    [|eexists; split; [done | by constructor]].
  destruct (raise_for_status response); cbn [outcome trace app];
    eexists; (split; [done | by repeat constructor]).
Qed.

Lemma query_overpass_api_outcome w query api_url data :
  outcome (query_overpass_api w query api_url) = Ok data →
  ∃ response,
    http_post w api_url [("data", query)] = Ok response ∧
    raise_for_status response = Ok tt ∧
    response_json response = Ok data.
Proof.
  unfold query_overpass_api, log, emit, lift, mbind, IO_bind. cbn [outcome trace app].
  destruct (http_post w api_url _) as [response|]; cbn [outcome]; [|done].
  destruct (raise_for_status response) as [[]|] eqn:Hstatus; cbn [outcome]; [|done].
  intros Hdata. by exists response.
Qed.

Lemma save_json_no_request w file data :
  Forall (λ e, request e = false) (trace (save_json w file data)).
Proof.
  unfold save_json, log, emit.
  repeat (apply Forall_trace_bind; [|intros ? _]);
    try (by repeat constructor); cbn [trace lift]; by repeat constructor.
Qed.

Lemma split_geojson_log_quiet geojson :
  Forall (λ e, request e = false ∧ file_operation e = false)
    (trace (split_geojson_log geojson)).
Proof.
  unfold split_geojson_log, log, emit.
  repeat (apply Forall_trace_bind; [|intros ? _]);
    try (by repeat constructor); cbn [trace lift mret IO_ret]; try by repeat constructor.
  apply Forall_trace_io_for. intros [layer gj] _.
  apply Forall_trace_bind; [by constructor|]. intros ? _. by repeat constructor.
Qed.

Lemma after_download_no_request w output_dir data :
  Forall (λ e, request e = false) (trace (after_download w output_dir data)).
Proof.
  unfold after_download.
  apply Forall_trace_bind; [by constructor|]. intros geojson_data _.
  apply Forall_trace_bind; [by constructor|]. intros processed_data _.
  apply Forall_trace_bind; [apply save_json_no_request|]. intros _ _.
  apply Forall_trace_bind.
  { eapply Forall_impl; [apply split_geojson_log_quiet|]. by intros e [? _]. }
  intros layers _. apply Forall_trace_io_for. intros [name gj] _.
  apply save_json_no_request.
Qed.

(** X12.  Whatever the world answers, a run of [main] makes exactly one
    request, the POST of the query to the Overpass URL, right after its
    first log line and before anything else happens; it is never
    repeated. *)
Theorem main_one_request (w : World) (output_dir : path) :
  ∃ rest,
    trace (main w output_dir) =
      Log INFO ("Requesting data from Overpass API. [url=" +:+ overpass_api_url +:+ "]")
      :: HttpPost overpass_api_url [("data", overpass_query)] :: rest ∧
    Forall (λ e, request e = false) rest.
Proof.
  rewrite main_after_download.
  destruct (query_overpass_api_trace w overpass_query overpass_api_url)
    as (rest & Htrace & Hrest).
  assert (Forall (λ e, request e = false) rest) as Hquiet
    by (eapply Forall_impl; [exact Hrest|]; by intros e [? _]).
  destruct (outcome (query_overpass_api w overpass_query overpass_api_url))
    as [data|e] eqn:Houtcome.
  - rewrite (bind_Ok _ _ _ Houtcome). cbn [trace]. rewrite Htrace.
    eexists. split; [reflexivity|]. apply Forall_app. split; [exact Hquiet|].
    apply after_download_no_request.
  - rewrite (bind_Err _ _ _ Houtcome). cbn [trace]. rewrite Htrace. by eexists.
Qed.

(** X13.  [main] touches a file only after the download, the conversion
    and the normalisation have all succeeded: if its trace holds a file
    operation, then the request was answered, its status was fine, its
    body was JSON, [json2geojson] converted it and [process_geojson]
    returned. *)
Theorem main_files_after_download (w : World) (output_dir : path) (e : event) :
  e ∈ trace (main w output_dir) →
  file_operation e = true →
  ∃ response data geojson_data processed_data,
    http_post w overpass_api_url [("data", overpass_query)] = Ok response ∧
    raise_for_status response = Ok tt ∧
    response_json response = Ok data ∧
    json2geojson w data = Ok geojson_data ∧
    process_geojson geojson_data = Ok processed_data.
Proof.
  rewrite main_after_download. intros He Hfile.
  apply elem_of_trace_bind in He as [He | (data & Hdata & He)].
  { destruct (query_overpass_api_trace w overpass_query overpass_api_url)
      as (rest & Htrace & Hrest).
    rewrite Htrace in He. rewrite !elem_of_cons in He.
    destruct He as [-> | [-> | He]]; [done..|].
    rewrite Forall_forall in Hrest. destruct (Hrest _ He) as [_ Hno]. congruence. }
  apply query_overpass_api_outcome in Hdata as (response & Hpost & Hstatus & Hjson).
  unfold after_download in He.
  apply elem_of_trace_bind in He as [He | (geojson_data & Hgeojson & He)];
    [by apply elem_of_nil in He|].
  apply elem_of_trace_bind in He as [He | (processed_data & Hprocessed & He)];
    [by apply elem_of_nil in He|].
  by exists response, data, geojson_data, processed_data.
Qed.

(** A world where the download and every write succeed: the request is
    answered with a body that [json2geojson] turns into the sample data. *)
Definition online_world : World :=
  {| this_files_dir := Path "/srv/ua-2022-map";
     stat := λ _, Ok Directory;
     path_str := plain_path_str;
     http_post := λ _ _, Ok {| raise_for_status := Ok tt;
                               response_json := Ok (JObj {[ "elements" := JArr [] ]}) |};
     json2geojson := λ _, Ok (JObj sample_data);
     open_w := λ _, Ok tt;
     float_repr := λ _, "1.5";
     encode_str := plain_literal |}.

Lemma main_files_after_download_witness :
  FileOpen (JoinPath (Path "/tmp") "osm_data.geojson")
    ∈ trace (main online_world (Path "/tmp")) ∧
  ∃ processed_data, process_geojson (JObj sample_data) = Ok processed_data.
Proof.
  assert (FileOpen (JoinPath (Path "/tmp") "osm_data.geojson")
            ∈ trace (main online_world (Path "/tmp"))) as Hopen.
  { apply list_elem_of_lookup. exists 4. vm_compute. reflexivity. }
  split; [exact Hopen|].
  destruct (main_files_after_download online_world (Path "/tmp") _ Hopen eq_refl)
    as (response & data & geojson_data & processed_data & _ & _ & _ & Hgeojson & Hprocessed).
  injection Hgeojson as <-. by exists processed_data.
Defined.

(** *** A run in which everything succeeds *)

Definition written (e : event) : option (path * string) :=
  match e with
  | FileWrite file text => Some (file, text)
  | _ => None
  end.

Lemma written_quiet l :
  Forall (λ e, file_operation e = false) l → omap written l = [].
Proof.
  induction 1 as [|e l He _ IH]; [done|]. cbn [omap list_omap].
  fold (omap written l). rewrite IH. by destruct e.
Qed.

Lemma subscript_features l :
  Py.subscript (feature_collection l) "features" = Ok (JArr l).
Proof.
  unfold feature_collection. cbn [Py.subscript].
  rewrite lookup_insert_ne by done. by rewrite lookup_singleton_eq.
Qed.

Lemma io_for_outcome {A} (body : A → IO unit) l :
  (∀ x, x ∈ l → outcome (body x) = Ok tt) → outcome (io_for body l) = Ok tt.
Proof.
  induction l as [|x l IH]; intros Hbody; cbn [io_for]; [done|].
  rewrite (bind_Ok _ _ tt) by (apply Hbody; by left). cbn [outcome].
  apply IH. intros y Hy. apply Hbody. by right.
Qed.

Lemma process_then_split data processed :
  process_geojson data = Ok processed →
  ∃ outs layers,
    processed = feature_collection outs ∧
    split_geojson processed = Ok layers ∧
    ∀ layer_name, Odict.get layers layer_name = collected layer_name outs.
Proof.
  unfold process_geojson.
  destruct (Py.subscript data "features") as [features|]; [|done]. cbn [mbind result_bind].
  destruct (Py.iter features) as [l|]; [|done]. cbn [mbind result_bind].
  destruct (comprehension process_feature l) as [outs|] eqn:Houts; [|done].
  cbn [mbind result_bind]. intros [= <-].
  assert (Forall has_properties outs) as Hall.
  { apply comprehension_Ok in Houts. clear -Houts.
    induction Houts as [|x y l ys Hy _ IH]; constructor; [|done].
    by eapply process_feature_has_properties. }
  destruct (split_loop outs [] [] Hall) as (layers & Hloop & Hget); [done|].
  exists outs, layers. split; [done|]. split; [|exact Hget].
  fold (feature_collection outs). unfold split_geojson. rewrite subscript_features.
  cbn [mbind result_bind Py.iter]. exact Hloop.
Qed.

Lemma split_geojson_log_success outs layers :
  split_geojson (feature_collection outs) = Ok layers →
  outcome (split_geojson_log (feature_collection outs)) = Ok layers.
Proof.
  intros Hsplit. pose proof (split_geojson_layers_ok _ _ Hsplit) as (_ & _ & Hlayers).
  unfold split_geojson_log. rewrite subscript_features.
  cbn [mbind result_bind len Py.iter].
  rewrite (bind_Ok _ _ (length outs)) by done. cbn [outcome].
  rewrite (bind_Ok _ _ tt) by done. cbn [outcome].
  rewrite (bind_Ok _ _ layers) by (by rewrite Hsplit). cbn [outcome].
  rewrite (bind_Ok _ _ tt) by done. cbn [outcome].
  rewrite (bind_Ok _ _ tt); [done|].
  apply io_for_outcome. intros [layer gj] Hin.
  assert (∃ l, gj = feature_collection l) as [l ->].
  { assert (NoDup (Odict.keys layers)) as Hnodup
      by apply (split_geojson_layers_ok _ _ Hsplit).
    assert (Odict.get layers layer = Some gj) as Hget.
    { clear -Hin Hnodup. induction layers as [|[k v] layers IH]; [by apply elem_of_nil in Hin|].
      cbn [Odict.get]. unfold Odict.keys in Hnodup. cbn [fmap list_fmap fst] in Hnodup.
      apply NoDup_cons in Hnodup as [Hk Hnodup].
      apply elem_of_cons in Hin as [[= <- <-] | Hin].
      - by rewrite String.eqb_refl.
      - destruct (String.eqb_spec k layer) as [-> | _]; [|by apply IH].
        destruct Hk. apply list_elem_of_fmap. by exists (layer, gj). }
    destruct (Hlayers _ _ Hget) as (f & l & ->). by eexists. }
  rewrite subscript_features. cbn [mbind result_bind len Py.iter].
  by rewrite (bind_Ok _ _ (length l)).
Qed.

Lemma run_bind {A B} (m : IO A) (f : A → IO B) a ws ws' o :
  outcome m = Ok a →
  omap written (trace m) = ws →
  omap written (trace (f a)) = ws' ∧ outcome (f a) = o →
  omap written (trace (m ≫= f)) = ws ++ ws' ∧ outcome (m ≫= f) = o.
Proof.
  intros Hm <- [<- <-]. rewrite (bind_Ok _ _ _ Hm). cbn [trace outcome].
  by rewrite omap_app.
Qed.

Lemma query_overpass_api_success w query api_url response data :
  http_post w api_url [("data", query)] = Ok response →
  raise_for_status response = Ok tt →
  response_json response = Ok data →
  outcome (query_overpass_api w query api_url) = Ok data ∧
  omap written (trace (query_overpass_api w query api_url)) = [].
Proof.
  intros Hpost Hstatus Hjson. split.
  - unfold query_overpass_api, log, emit, lift, mbind, IO_bind. cbn [outcome trace app].
    rewrite Hpost. cbn [outcome]. rewrite Hstatus. cbn [outcome]. exact Hjson.
  - destruct (query_overpass_api_trace w query api_url) as (rest & -> & Hrest).
    cbn [omap list_omap written]. apply written_quiet.
    eapply Forall_impl; [exact Hrest|]. by intros e [_ ?].
Qed.

(** A collection holds a number that is no number of JSON exactly when
    one of its features does. *)
Lemma has_nonfinite_obj d :
  has_nonfinite (JObj d) = true ↔ ∃ key v, d !! key = Some v ∧ has_nonfinite v = true.
Proof.
  cbn [has_nonfinite]. rewrite existsb_exists. split.
  - intros ([key b] & Hin%list_elem_of_In%elem_of_map_to_list & Hb).
    cbn [snd] in Hb. subst b. rewrite lookup_fmap in Hin.
    destruct (d !! key) as [v|] eqn:Hkey; [|done]. injection Hin as Hv.
    by exists key, v.
  - intros (key & v & Hkey & Hv). exists (key, true). split; [|done].
    apply list_elem_of_In, elem_of_map_to_list. by rewrite lookup_fmap, Hkey, <- Hv.
Qed.

Lemma has_nonfinite_collection l :
  has_nonfinite (feature_collection l) = existsb has_nonfinite l.
Proof.
  apply eq_true_iff_eq. unfold feature_collection. rewrite has_nonfinite_obj. split.
  - intros (key & v & Hkey & Hv).
    apply lookup_insert_Some in Hkey as [[_ <-] | [_ Hkey]]; [done|].
    by apply lookup_singleton_Some in Hkey as [_ <-].
  - intros Hl. exists "features", (JArr l). split; [|done].
    rewrite lookup_insert_ne by done. by rewrite lookup_singleton_eq.
Qed.

Lemma existsb_filter_false {A} (f g : A → bool) l :
  existsb f l = false → existsb f (List.filter g l) = false.
Proof.
  induction l as [|x l IH]; [done|]. cbn [existsb List.filter].
  intros [Hx Hl]%orb_false_elim. destruct (g x); cbn [existsb]; [|by apply IH].
  by rewrite Hx, IH.
Qed.

Lemma odict_elem_get (layers : Odict.t json) name gj :
  NoDup (Odict.keys layers) → (name, gj) ∈ layers → Odict.get layers name = Some gj.
Proof.
  intros Hnodup Hin.
  induction layers as [|[k v] layers IH]; [by apply elem_of_nil in Hin|].
  cbn [Odict.get]. unfold Odict.keys in Hnodup. cbn [fmap list_fmap fst] in Hnodup.
  apply NoDup_cons in Hnodup as [Hk Hnodup].
  apply elem_of_cons in Hin as [[= <- <-] | Hin].
  - by rewrite String.eqb_refl.
  - destruct (String.eqb_spec k name) as [-> | _]; [|by apply IH].
    destruct Hk. apply list_elem_of_fmap. by exists (name, gj).
Qed.

(** The layers of a collection of finite numbers hold finite numbers. *)
Lemma layers_finite outs (layers : Odict.t json) :
  NoDup (Odict.keys layers) →
  (∀ layer_name, Odict.get layers layer_name = collected layer_name outs) →
  has_nonfinite (feature_collection outs) = false →
  Forall (λ kv, has_nonfinite kv.2 = false) layers.
Proof.
  intros Hnodup Hget Hfinite. rewrite has_nonfinite_collection in Hfinite.
  apply Forall_forall. intros [name gj] Hin. cbn [snd].
  apply (odict_elem_get _ _ _ Hnodup) in Hin. rewrite Hget in Hin.
  unfold collected in Hin.
  pose proof (existsb_filter_false _ (in_layer name) _ Hfinite) as Hlayer.
  destruct (List.filter (in_layer name) outs) as [|feature l]; [done|].
  injection Hin as <-. by rewrite has_nonfinite_collection.
Qed.

Lemma save_json_success w file data :
  open_w w file = Ok tt →
  has_nonfinite data = false →
  omap written (trace (save_json w file data)) =
    [(file, compact_text (float_repr w) (encode_str w) data)] ∧
  outcome (save_json w file data) = Ok tt.
Proof. intros Hopen Hfinite. by rewrite (save_json_run_finite _ _ _ Hopen Hfinite). Qed.

Lemma io_for_save_json w output_dir (layers : Odict.t json) :
  (∀ file, open_w w file = Ok tt) →
  Forall (λ kv, has_nonfinite kv.2 = false) layers →
  omap written
    (trace (io_for (λ '(name, gj),
                      save_json w (JoinPath output_dir (name +:+ ".geojson")) gj) layers)) =
    (λ '(name, gj), (JoinPath output_dir (name +:+ ".geojson"),
                     compact_text (float_repr w) (encode_str w) gj)) <$> layers ∧
  outcome (io_for (λ '(name, gj),
                     save_json w (JoinPath output_dir (name +:+ ".geojson")) gj) layers) =
    Ok tt.
Proof.
  intros Hopen. induction 1 as [|[name gj] layers Hgj _ IH]; [done|].
  cbn [io_for fmap list_fmap].
  destruct (save_json_success w (JoinPath output_dir (name +:+ ".geojson")) gj
              (Hopen _) Hgj) as [Hwritten Houtcome].
  by apply (run_bind _ _ tt [_]).
Qed.

(** X14.  When the request is answered with JSON that converts and
    normalises to a collection of finite numbers, and every file can be
    opened, [main] ends normally and has written exactly these files, in
    this order: [osm_data.geojson] with the whole normalised collection,
    then one [<layer>.geojson] per layer of [split_geojson], in the order
    of its result, each with the compact text [json.dump] gives for it. *)
Theorem main_success (w : World) (output_dir : path)
    (response : response) (data geojson_data processed_data : json) :
  http_post w overpass_api_url [("data", overpass_query)] = Ok response →
  raise_for_status response = Ok tt →
  response_json response = Ok data →
  json2geojson w data = Ok geojson_data →
  process_geojson geojson_data = Ok processed_data →
  (∀ file, open_w w file = Ok tt) →
  has_nonfinite processed_data = false →
  ∃ layers,
    split_geojson processed_data = Ok layers ∧
    omap written (trace (main w output_dir)) =
      (JoinPath output_dir "osm_data.geojson",
       compact_text (float_repr w) (encode_str w) processed_data)
      :: ((λ '(name, gj), (JoinPath output_dir (name +:+ ".geojson"),
                           compact_text (float_repr w) (encode_str w) gj)) <$> layers) ∧
    outcome (main w output_dir) = Ok tt.
Proof.
  intros Hpost Hstatus Hjson Hgeojson Hprocessed Hopen Hfinite.
  destruct (process_then_split _ _ Hprocessed) as (outs & layers & -> & Hsplit & Hget).
  exists layers. split; [exact Hsplit|].
  destruct (query_overpass_api_success _ _ _ _ _ Hpost Hstatus Hjson) as [Hquery Hquiet].
  rewrite main_after_download.
  apply (run_bind _ _ data [] _ _ Hquery Hquiet). unfold after_download.
  apply (run_bind (lift (json2geojson w data)) _ geojson_data [] _ _ Hgeojson eq_refl).
  apply (run_bind (lift (process_geojson geojson_data)) _ (feature_collection outs) [] _ _
           Hprocessed eq_refl).
  destruct (save_json_success w (JoinPath output_dir "osm_data.geojson")
              (feature_collection outs) (Hopen _) Hfinite) as [Hwritten Houtcome].
  apply (run_bind _ _ tt [_] _ _ Houtcome Hwritten).
  apply (run_bind _ _ layers [] _ _ (split_geojson_log_success _ _ Hsplit)).
  { apply written_quiet. eapply Forall_impl; [apply split_geojson_log_quiet|].
    by intros e [_ ?]. }
  apply io_for_save_json; [exact Hopen|].
  apply (layers_finite outs); [|exact Hget|exact Hfinite].
  apply (split_geojson_layers_ok _ _ Hsplit).
Qed.

Lemma main_success_witness :
  ∃ processed_data layers,
    process_geojson (JObj sample_data) = Ok processed_data ∧
    has_nonfinite processed_data = false ∧
    split_geojson processed_data = Ok layers ∧
    outcome (main online_world (Path "/tmp")) = Ok tt ∧
    (length (omap written (trace (main online_world (Path "/tmp")))) = S (length layers))%nat.
Proof.
  assert (∃ processed_data, process_geojson (JObj sample_data) = Ok processed_data ∧
                            has_nonfinite processed_data = false)
    as (processed_data & Hprocessed & Hfinite).
  { eexists. split; vm_compute; reflexivity. }
  destruct (main_success online_world (Path "/tmp") _ _ _ processed_data
              eq_refl eq_refl eq_refl eq_refl Hprocessed (λ _, eq_refl) Hfinite)
    as (layers & Hsplit & Hwritten & Houtcome).
  exists processed_data, layers. split; [exact Hprocessed|]. split; [exact Hfinite|].
  split; [exact Hsplit|].
  split; [exact Houtcome|]. rewrite Hwritten. cbn [length]. by rewrite length_fmap.
Defined.

(** *** A run in which the first write fails *)

Definition file_event (e : event) : option event :=
  if file_operation e then Some e else None.

Lemma file_event_quiet l :
  Forall (λ e, file_operation e = false) l → omap file_event l = [].
Proof.
  induction 1 as [|e l He _ IH]; [done|]. cbn [omap list_omap].
  fold (omap file_event l). rewrite IH. unfold file_event. by rewrite He.
Qed.

Lemma run_bind_with {A B X} (g : event → option X) (m : IO A) (f : A → IO B) a ws ws' o :
  outcome m = Ok a →
  omap g (trace m) = ws →
  omap g (trace (f a)) = ws' ∧ outcome (f a) = o →
  omap g (trace (m ≫= f)) = ws ++ ws' ∧ outcome (m ≫= f) = o.
Proof.
  intros Hm <- [<- <-]. rewrite (bind_Ok _ _ _ Hm). cbn [trace outcome].
  by rewrite omap_app.
Qed.

Lemma run_fail_with {A B X} (g : event → option X) (m : IO A) (f : A → IO B) e ws :
  outcome m = Err e →
  omap g (trace m) = ws →
  omap g (trace (m ≫= f)) = ws ∧ outcome (m ≫= f) = Err e.
Proof. intros Hm <-. by rewrite (bind_Err _ _ _ Hm). Qed.

(** X15.  When the download, the conversion and the normalisation
    succeed and [osm_data.geojson] can be opened but the normalised
    collection holds a NaN or an infinity, [main] ends with
    [ValueError], and the only file the run touches is
    [osm_data.geojson]: it is opened, so emptied, and left holding what
    [json.dump] wrote before the number it refuses; no layer file is
    touched. *)
Theorem main_dump_failure (w : World) (output_dir : path)
    (response : response) (data geojson_data processed_data : json) :
  http_post w overpass_api_url [("data", overpass_query)] = Ok response →
  raise_for_status response = Ok tt →
  response_json response = Ok data →
  json2geojson w data = Ok geojson_data →
  process_geojson geojson_data = Ok processed_data →
  open_w w (JoinPath output_dir "osm_data.geojson") = Ok tt →
  has_nonfinite processed_data = true →
  omap file_event (trace (main w output_dir)) =
    [ FileOpen (JoinPath output_dir "osm_data.geojson");
      FileWrite (JoinPath output_dir "osm_data.geojson")
        (Json.dump (float_repr w) (encode_str w) processed_data false (",", ":")).1 ] ∧
  outcome (main w output_dir) = Err ValueError.
Proof.
  intros Hpost Hstatus Hjson Hgeojson Hprocessed Hopen Hfinite.
  destruct (query_overpass_api_success _ _ _ _ _ Hpost Hstatus Hjson) as [Hquery _].
  assert (omap file_event (trace (query_overpass_api w overpass_query overpass_api_url))
            = []) as Hquiet.
  { destruct (query_overpass_api_trace w overpass_query overpass_api_url)
      as (rest & -> & Hrest).
    cbn [omap list_omap file_event file_operation]. apply file_event_quiet.
    eapply Forall_impl; [exact Hrest|]. by intros ? [_ ?]. }
  rewrite main_after_download.
  apply (run_bind_with file_event _ _ data [] _ _ Hquery Hquiet). unfold after_download.
  apply (run_bind_with file_event (lift (json2geojson w data)) _ geojson_data [] _ _
           Hgeojson eq_refl).
  apply (run_bind_with file_event (lift (process_geojson geojson_data)) _ processed_data
           [] _ _ Hprocessed eq_refl).
  apply run_fail_with; by rewrite (save_json_run_nonfinite _ _ _ Hopen Hfinite).
Qed.

(** A pharmacy whose position is no number, and a world like
    [online_world] whose download converts to it. *)
Definition adrift_feature : json :=
  JObj {[ "type" := JStr "Feature";
          "properties" := JObj pharmacy_properties;
          "geometry" := JObj {[ "type" := JStr "Point";
                                "coordinates" := JArr [JInt 22; JFloat S754_nan] ]} ]}.

Definition adrift_data : gmap string json :=
  {[ "type" := JStr "FeatureCollection";
     "features" := JArr [adrift_feature; station_feature] ]}.

Definition adrift_world : World :=
  {| this_files_dir := this_files_dir online_world;
     stat := stat online_world;
     path_str := path_str online_world;
     http_post := http_post online_world;
     json2geojson := λ _, Ok (JObj adrift_data);
     open_w := open_w online_world;
     float_repr := float_repr online_world;
     encode_str := encode_str online_world |}.

Lemma main_dump_failure_witness :
  ∃ processed_data,
    process_geojson (JObj adrift_data) = Ok processed_data ∧
    has_nonfinite processed_data = true ∧
    outcome (main adrift_world (Path "/tmp")) = Err ValueError ∧
    length (omap file_event (trace (main adrift_world (Path "/tmp")))) = 2%nat.
Proof.
  assert (∃ processed_data, process_geojson (JObj adrift_data) = Ok processed_data ∧
                            has_nonfinite processed_data = true)
    as (processed_data & Hprocessed & Hfinite).
  { eexists. split; vm_compute; reflexivity. }
  exists processed_data. split; [exact Hprocessed|]. split; [exact Hfinite|].
  destruct (main_dump_failure adrift_world (Path "/tmp") _ _ _ processed_data
              eq_refl eq_refl eq_refl eq_refl Hprocessed eq_refl Hfinite)
    as [Hfiles Houtcome].
  split; [exact Houtcome|]. by rewrite Hfiles.
Defined.

(** ** A house number that is not a string *)

Lemma add_result a b r : Py.add a b = r → r = Err TypeError ∨ ∃ s, r = Ok (JStr s).
Proof. intros <-. destruct a, b; cbn [Py.add]; eauto. Qed.

(** X16.  A house number that is truthy and not a string (a number, for
    one) makes normalisation raise [TypeError], whatever the other tags
    are. *)
Theorem housenumber_type_error (properties p : gmap string json) (v : json) :
  properties !! "tags" = Some (JObj p) →
  p !! "addr:housenumber" = Some v →
  Py.truthy v = true →
  (∀ s, v ≠ JStr s) →
  process_feature_properties (JObj properties) = Err TypeError.
Proof.
  intros Htags Hnumber Htruthy Hv.
  unfold process_feature_properties. cbn [Py.subscript]. rewrite Htags.
  cbn [mbind result_bind Py.items].
  assert (Py.get p "addr:housenumber" = v) as -> by (unfold Py.get; by rewrite Hnumber).
  rewrite Htruthy.
  destruct (add_result _ _ _ (eq_refl (Py.add (coalesce [Py.get p "addr:city";
              Py.get p "addr:place"]) (JStr " ")))) as [-> | [place ->]]; [done|].
  cbn [mbind result_bind].
  assert (∀ street : result json,
            (street = Err TypeError ∨ ∃ s, street = Ok (JStr s)) →
            (street ≫= λ street, Py.add (JStr place) street ≫= λ a, Py.add a v
               ≫= λ a, Ok (<["address" := a]>
                     (<["name:ru" := coalesce [Py.get p "name:ru"; Py.get p "name"]]>
                     (<["name:en" := coalesce [Py.get p "name:en"; Py.get p "name"]]>
                     (<["name:uk" := coalesce [Py.get p "name:uk"; Py.get p "name:ua";
                                               Py.get p "name"]]>
                     (<["name:pl" := coalesce [Py.get p "name:pl"; Py.get p "name"]]>
                     (kept_tags p))))))) = Err TypeError) as Hstreet.
  { intros street [-> | [s ->]]; [done|]. cbn [mbind result_bind Py.add].
    destruct v; try done. by destruct (Hv s0). }
  destruct (Py.truthy (Py.get_default p "addr:street" (JStr ""))).
  - rewrite Hstreet; [done|]. by eapply add_result.
  - rewrite Hstreet; [done|]. right. by eexists.
Qed.

(** Tags whose house number is a number. *)
Definition numbered_house : gmap string json :=
  {[ "amenity" := JStr "pharmacy"; "addr:city" := JStr "X"; "addr:housenumber" := JInt 5 ]}.

Definition numbered_house_properties : gmap string json :=
  {[ "tags" := JObj numbered_house ]}.

Lemma housenumber_type_error_witness :
  numbered_house_properties !! "tags" = Some (JObj numbered_house) ∧
  numbered_house !! "addr:housenumber" = Some (JInt 5) ∧
  Py.truthy (JInt 5) = true ∧
  process_feature_properties (JObj numbered_house_properties) = Err TypeError.
Proof.
  repeat (split; [reflexivity|]).
  by apply (housenumber_type_error numbered_house_properties numbered_house (JInt 5)).
Defined.
